(** * SMART Hopper 3 client (smarthoper.py): frame codec, parameter
      discovery and command sequencer.

    Python integers are unbounded, so they are modelled as [Z]; the bit
    operators [&], [|], [^], [>>] are [Z.land], [Z.lor], [Z.lxor] and
    [Z.shiftr], which agree with Python on negative numbers as well
    (both use the infinite two's complement reading). *)

From Stdlib Require Import ZArith List String Bool Lia.
Import ListNotations.
Local Open Scope Z_scope.

(** ** Protocol constants *)

Definition VENDOR_ID : Z := 0x191c.
Definition PRODUCT_ID : Z := 0x4104.

Definition CMD_SYNC : Z := 0x11.
Definition CMD_SETUP_REQUEST : Z := 0x05.
Definition CMD_ENABLE : Z := 0x0A.
Definition CMD_DISABLE : Z := 0x09.
Definition CMD_POLL : Z := 0x07.
Definition CMD_RESET : Z := 0x01.

(** ** Frame codec *)

Module Codec.

(** One pass of the inner [for _ in range(8)] loop of [calculate_crc]:
    [if crc & 0x0001: crc >>= 1; crc ^= 0x8408  else: crc >>= 1]. *)
Definition crc_shift (crc : Z) : Z :=
  if Z.eqb (Z.land crc 0x0001) 0
  then Z.shiftr crc 1
  else Z.lxor (Z.shiftr crc 1) 0x8408.

(** Body of the outer loop: [crc ^= b] and then the eight passes. *)
Definition crc_update (crc b : Z) : Z :=
  Nat.iter 8 crc_shift (Z.lxor crc b).

(** [calculate_crc(data)]: the register starts at 0xFFFF and is returned
    as it stands after the last byte. *)
Definition calculate_crc (data : list Z) : Z :=
  fold_left crc_update data 0xFFFF.

(** A value that [bytes(...)] accepts as one element. *)
Definition is_byte (b : Z) : bool := (0 <=? b) && (b <? 256).

(** [bytes(packet)]: raises [ValueError] (here [None]) as soon as one
    element is outside [range(0, 256)]. *)
Definition to_bytes (packet : list Z) : option (list Z) :=
  if forallb is_byte packet then Some packet else None.

(** [create_ssp_packet(command, sequence, data)].  The default arguments
    are [sequence = 0x80] and [data = None], the latter read as [[]];
    callers that rely on them pass these values here. *)
Definition create_ssp_packet (command sequence : Z) (data : list Z)
  : option (list Z) :=
  let packet := [0x7F; sequence; Z.of_nat (List.length data) + 1; command] ++ data in
  let crc := calculate_crc packet in
  to_bytes (packet ++ [Z.land crc 0xFF; Z.land (Z.shiftr crc 8) 0xFF]).

(** The CRC-16 computation as the specification words it, on a 16-bit
    register: the byte is XORed into the low byte of the register, the
    high byte is kept. *)
Definition reg_xor_low (reg b : Z) : Z :=
  256 * (reg / 256) + Z.lxor (reg mod 256) b.

(** One of the eight iterations: shift right by one bit, and XOR with
    0x8408 exactly when the low bit was set before the shift. *)
Definition reg_step (reg : Z) : Z :=
  let low := Z.testbit reg 0 in
  let shifted := Z.shiftr reg 1 in
  if low then Z.lxor shifted 0x8408 else shifted.

Fixpoint reg_steps (n : nat) (reg : Z) : Z :=
  match n with
  | O => reg
  | S n' => reg_steps n' (reg_step reg)
  end.

Fixpoint crc16_from (reg : Z) (data : list Z) : Z :=
  match data with
  | [] => reg
  | b :: rest => crc16_from (reg_steps 8 (reg_xor_low reg b)) rest
  end.

Definition crc16_reference (data : list Z) : Z := crc16_from 0xFFFF data.

(** A value that fits the sixteen-bit register. *)
Definition is_word (x : Z) : Prop := 0 <= x < 65536.

End Codec.

Import Codec.

(** ** Transport adapter

    pyserial is an external collaborator; it is modelled by the requests
    the client makes on it.  A transport is a deterministic state machine
    answering each request with [Some bs] (the request succeeded, [bs]
    being the bytes returned by a read and ignored otherwise) or [None]
    (the request raised an exception of class [Exception], the only kind
    the client catches). *)

Inductive op : Type :=
| OpOpen (port : string) (baudrate : Z)   (* serial.Serial(port=..., baudrate=..., 8N1, timeout=2) *)
| OpSetDtr (level : bool)                 (* ser.dtr = level *)
| OpSetRts (level : bool)                 (* ser.rts = level *)
| OpResetInput                            (* ser.reset_input_buffer() *)
| OpResetOutput                           (* ser.reset_output_buffer() *)
| OpWrite (packet : list Z)               (* ser.write(packet) *)
| OpRead (size : Z).                      (* ser.read(size) *)

(** What a run leaves behind: every request with its answer, every
    [time.sleep] (in milliseconds) and every release of the port at the
    end of a [with] block.  The release is taken not to raise. *)
Inductive event : Type :=
| Call (o : op) (answer : option (list Z))
| Sleep (ms : Z)
| Close.

Record transport : Type := {
  world : Type;
  io : world -> op -> world * option (list Z)
}.

(** Result of a computation that may raise. *)
Inductive outcome (A : Type) : Type :=
| Val (a : A)
| Exc.
Arguments Val {A} a.
Arguments Exc {A}.

(** The dictionary returned by [test_serial_port]; its four keys are
    fixed, so it is a record. *)
Record settings : Type := {
  port : string;
  baudrate : Z;
  dtr : bool;
  rts : bool
}.

(** An entry of [serial.tools.list_ports.comports()], with the fields the
    selection looks at; [vid] and [pid] are [None] on ports that are not
    USB.  The descriptive fields are only logged. *)
Record port_info : Type := {
  vid : option Z;
  pid : option Z;
  device : string
}.

(** Truth value of a [bytes] object: non-empty. *)
Definition nonempty (bs : list Z) : bool :=
  match bs with
  | [] => false
  | _ :: _ => true
  end.

Section Client.

Variable T : transport.

(** Computations over the transport: the events issued, the transport's
    new state and a value or an exception. *)
Definition M (A : Type) : Type :=
  world T -> list event * world T * outcome A.

Definition ret {A : Type} (a : A) : M A :=
  fun w => ([], w, Val a).

Definition bind {A B : Type} (m : M A) (k : A -> M B) : M B :=
  fun w =>
    match m w with
    | (t1, w1, Val a) =>
        match k a w1 with
        | (t2, w2, r) => (t1 ++ t2, w2, r)
        end
    | (t1, w1, Exc) => (t1, w1, Exc)
    end.

Notation "x <- m ;; k" := (bind m (fun x => k))
  (at level 61, m at next level, right associativity).
Notation "m ;; k" := (bind m (fun _ => k))
  (at level 61, right associativity).

(** A request to the transport. *)
Definition call (o : op) : M (list Z) :=
  fun w =>
    match io T w o with
    | (w1, Some bs) => ([Call o (Some bs)], w1, Val bs)
    | (w1, None) => ([Call o None], w1, Exc)
    end.

Definition sleep (ms : Z) : M unit :=
  fun w => ([Sleep ms], w, Val tt).

(** A [ValueError] raised by [create_ssp_packet]. *)
Definition raise_none {A : Type} (o : option A) : M A :=
  fun w =>
    match o with
    | Some a => ([], w, Val a)
    | None => ([], w, Exc)
    end.

(** [try: m  except Exception: handler]. *)
Definition catch {A : Type} (m handler : M A) : M A :=
  fun w =>
    match m w with
    | (t1, w1, Exc) =>
        match handler w1 with
        | (t2, w2, r) => (t1 ++ t2, w2, r)
        end
    | done => done
    end.

(** [with serial.Serial(port=port, baudrate=baud, ...) as ser: body].
    When the constructor raises nothing was opened; otherwise the port is
    released on every way out of the body. *)
Definition with_serial {A : Type} (port : string) (baud : Z) (body : M A)
  : M A :=
  fun w =>
    match io T w (OpOpen port baud) with
    | (w1, Some bs) =>
        match body w1 with
        | (t, w2, r) => (Call (OpOpen port baud) (Some bs) :: t ++ [Close], w2, r)
        end
    | (w1, None) => ([Call (OpOpen port baud) None], w1, Exc)
    end.

(** *** Parameter discovery: [test_serial_port] *)

Definition default_baud_rates : list Z := [9600; 19200; 38400; 115200].

Definition configurations : list (bool * bool) :=
  [(false, false); (true, false); (false, true); (true, true)].

(** Body of [for dtr, rts in configurations].  [Some s] stands for
    [return s] out of the function, [None] for falling through to the
    next pass. *)
Definition probe (port_name : string) (baud : Z) (cfg : bool * bool)
  : M (option settings) :=
  let '(dtr, rts) := cfg in
  call (OpSetDtr dtr) ;;
  call (OpSetRts rts) ;;
  sleep 500 ;;
  call OpResetInput ;;
  call OpResetOutput ;;
  sync_packet <- raise_none (create_ssp_packet CMD_SYNC 0x80 []) ;;
  call (OpWrite sync_packet) ;;
  response <- call (OpRead 64) ;;
  if nonempty response
  then ret (Some {| port := port_name; baudrate := baud; dtr := dtr; rts := rts |})
  else
    call OpResetInput ;;
    call OpResetOutput ;;
    reset_packet <- raise_none (create_ssp_packet CMD_RESET 0x80 []) ;;
    call (OpWrite reset_packet) ;;
    response <- call (OpRead 64) ;;
    if nonempty response
    then ret (Some {| port := port_name; baudrate := baud; dtr := dtr; rts := rts |})
    else ret None.

Fixpoint probe_all (port_name : string) (baud : Z) (cfgs : list (bool * bool))
  : M (option settings) :=
  match cfgs with
  | [] => ret None
  | cfg :: rest =>
      found <- probe port_name baud cfg ;;
      match found with
      | Some s => ret (Some s)
      | None => probe_all port_name baud rest
      end
  end.

(** The [with] block of one pass of [for baud in baud_rates]. *)
Definition test_baud (port_name : string) (baud : Z) : M (option settings) :=
  with_serial port_name baud (probe_all port_name baud configurations).

(** [for baud in baud_rates: try: ... except Exception as e: (log)],
    then [return None].  The permission check that precedes the loop is
    wholly inside a [try ... except Exception], talks to the operating
    system only and leaves no value behind, so it is not part of the
    model. *)
Fixpoint test_serial_port (port_name : string) (baud_rates : list Z)
  : M (option settings) :=
  match baud_rates with
  | [] => ret None
  | baud :: rest =>
      found <- catch (test_baud port_name baud) (ret None) ;;
      match found with
      | Some s => ret (Some s)
      | None => test_serial_port port_name rest
      end
  end.

(** *** Command sequencer: the [with] block of [main] *)

(** [sequence = 0x80 | ((sequence + 1) & 0x7F)]. *)
Definition advance (sequence : Z) : Z :=
  Z.lor 0x80 (Z.land (sequence + 1) 0x7F).

Definition commands : list (Z * string) :=
  [(CMD_SYNC, "SYNC"%string);
   (CMD_SETUP_REQUEST, "SETUP_REQUEST"%string);
   (CMD_ENABLE, "ENABLE"%string);
   (CMD_POLL, "POLL"%string)].

(** Body of [for i in range(3)]. *)
Definition extra_poll (sequence i : Z) : M unit :=
  poll_packet <- raise_none
    (create_ssp_packet CMD_POLL (Z.lor 0x80 (Z.land (sequence + i + 1) 0x7F)) []) ;;
  call (OpWrite poll_packet) ;;
  sleep 500 ;;
  call (OpRead 64) ;;
  ret tt.

Fixpoint for_each {A : Type} (body : A -> M unit) (l : list A) : M unit :=
  match l with
  | [] => ret tt
  | a :: rest => body a ;; for_each body rest
  end.

(** Body of [for cmd, name in commands]; the value is the sequence
    counter after the pass. *)
Definition send_command (cmd sequence : Z) : M Z :=
  packet <- raise_none (create_ssp_packet cmd sequence []) ;;
  call (OpWrite packet) ;;
  sleep 500 ;;
  response <- call (OpRead 64) ;;
  (if nonempty response
   then if cmd =? CMD_POLL
        then for_each (extra_poll sequence) [0; 1; 2]
        else ret tt
   else ret tt) ;;
  ret (advance sequence).

Fixpoint run_commands (cmds : list (Z * string)) (sequence : Z) : M Z :=
  match cmds with
  | [] => ret sequence
  | (cmd, _) :: rest =>
      sequence' <- send_command cmd sequence ;;
      run_commands rest sequence'
  end.

Definition session (s : settings) : M Z :=
  with_serial (port s) (baudrate s)
    (call (OpSetDtr (dtr s)) ;;
     call (OpSetRts (rts s)) ;;
     call OpResetInput ;;
     call OpResetOutput ;;
     run_commands commands 0x80).

(** *** The run: [main] *)

Definition is_target (p : port_info) : bool :=
  match vid p, pid p with
  | Some v, Some q => (v =? VENDOR_ID) && (q =? PRODUCT_ID)
  | _, _ => false
  end.

(** [identify_device()], on the list that [comports()] yields: the device
    path of the first entry with the target identifiers. *)
Fixpoint identify_device (ports : list port_info) : option string :=
  match ports with
  | [] => None
  | p :: rest => if is_target p then Some (device p) else identify_device rest
  end.

(** [main()], whose value is the exit status given to [sys.exit].
    [not port] holds for [None] and for the empty string.
    [create_udev_rule()] writes a file under /tmp inside its own
    [try ... except Exception] and does not touch the transport. *)
Definition main (ports : list port_info) : M Z :=
  match identify_device ports with
  | None => ret 1
  | Some port_name =>
      if (port_name =? "")%string then ret 1
      else
        found <- test_serial_port port_name default_baud_rates ;;
        match found with
        | None => ret 1
        | Some s =>
            failed <- catch (session s ;; ret false) (ret true) ;;
            if failed then ret 1 else ret 0
        end
  end.

(** *** Discovery with the fault handling the specification describes

    Every candidate is probed on a transport opened for it, and a fault
    is confined to the candidate at which it occurs. *)
Definition probe_candidate (port_name : string) (baud : Z) (cfg : bool * bool)
  : M (option settings) :=
  catch (with_serial port_name baud (probe port_name baud cfg)) (ret None).

Fixpoint discovery_per_candidate (port_name : string)
    (candidates : list (Z * (bool * bool))) : M (option settings) :=
  match candidates with
  | [] => ret None
  | (baud, cfg) :: rest =>
      found <- probe_candidate port_name baud cfg ;;
      match found with
      | Some s => ret (Some s)
      | None => discovery_per_candidate port_name rest
      end
  end.

End Client.

Arguments ret {T A} a.
Arguments bind {T A B} m k.
Arguments call {T} o.
Arguments catch {T A} m handler.
Arguments with_serial {T A} port baud body.
Arguments probe {T} port_name baud cfg.
Arguments probe_all {T} port_name baud cfgs.
Arguments test_baud {T} port_name baud.
Arguments test_serial_port {T} port_name baud_rates.
Arguments extra_poll {T} sequence i.
Arguments for_each {T A} body l.
Arguments send_command {T} cmd sequence.
Arguments run_commands {T} cmds sequence.
Arguments session {T} s.
Arguments main {T} ports.
Arguments probe_candidate {T} port_name baud cfg.
Arguments discovery_per_candidate {T} port_name candidates.

Definition trace_of {T : transport} {A : Type}
    (r : list event * world T * outcome A) : list event :=
  fst (fst r).

Definition result_of {T : transport} {A : Type}
    (r : list event * world T * outcome A) : outcome A :=
  snd r.

(** ** Reading a trace *)

(** The probe packets, byte for byte. *)
Definition SYNC_PACKET : list Z := [0x7F; 0x80; 0x01; 0x11; 0xA1; 0xFF].
Definition RESET_PACKET : list Z := [0x7F; 0x80; 0x01; 0x01; 0x20; 0xEF].

(** Baud rate and handshake levels of the link. *)
Definition line : Type := (Z * bool * bool)%type.

Definition line_step (l : line) (e : event) : line :=
  match l, e with
  | (_, d, r), Call (OpOpen _ b) (Some _) => (b, d, r)
  | (b, _, r), Call (OpSetDtr d) (Some _) => (b, d, r)
  | (b, d, _), Call (OpSetRts r) (Some _) => (b, d, r)
  | _, _ => l
  end.

Definition line_after (l : line) (tr : list event) : line :=
  fold_left line_step tr l.

(** The packets handed to [ser.write], each with the state of the link
    at that moment. *)
Fixpoint probes_from (l : line) (tr : list event) : list (line * list Z) :=
  match tr with
  | [] => []
  | Call (OpWrite p) a :: rest =>
      (l, p) :: probes_from (line_step l (Call (OpWrite p) a)) rest
  | e :: rest => probes_from (line_step l e) rest
  end.

Definition probes (tr : list event) : list (line * list Z) :=
  probes_from (0, false, false) tr.

Definition writes (tr : list event) : list (list Z) :=
  map snd (probes tr).

(** The sequence byte of every packet written. *)
Definition sequence_bytes (tr : list event) : list Z :=
  map (fun packet => nth 1 packet 0) (writes tr).

(** A command together with what follows it when nothing raises: the
    write, the delay of half a second and the read of up to 64 bytes. *)
Definition exchange (packet written response : list Z) : list event :=
  [Call (OpWrite packet) (Some written); Sleep 500;
   Call (OpRead 64) (Some response)].

Definition is_response (e : event) : bool :=
  match e with
  | Call (OpRead _) (Some (_ :: _)) => true
  | _ => false
  end.

Definition is_fault (e : event) : bool :=
  match e with
  | Call _ None => true
  | _ => false
  end.

(** No read of the trace returned a byte. *)
Definition quiet (tr : list event) : bool := forallb (fun e => negb (is_response e)) tr.

(** No request of the trace raised. *)
Definition faultless (tr : list event) : bool := forallb (fun e => negb (is_fault e)) tr.

(** The candidates in the order of the two loops, and the probe packets
    in the order in which a run without answers sends them. *)
Definition candidates_at (baud : Z) (cfgs : list (bool * bool))
  : list (Z * (bool * bool)) :=
  map (fun cfg => (baud, cfg)) cfgs.

Definition candidates (baud_rates : list Z) : list (Z * (bool * bool)) :=
  flat_map (fun baud => candidates_at baud configurations) baud_rates.

Definition candidate_probes (c : Z * (bool * bool)) : list (line * list Z) :=
  let '(baud, (d, r)) := c in
  [((baud, d, r), SYNC_PACKET); ((baud, d, r), RESET_PACKET)].

Definition probe_order (baud_rates : list Z) : list (line * list Z) :=
  flat_map candidate_probes (candidates baud_rates).

(** [l1] is [l2] with some elements left out. *)
Inductive subseq {A : Type} : list A -> list A -> Prop :=
| subseq_nil : subseq [] []
| subseq_skip (x : A) (l1 l2 : list A) : subseq l1 l2 -> subseq l1 (x :: l2)
| subseq_keep (x : A) (l1 l2 : list A) : subseq l1 l2 -> subseq (x :: l1) (x :: l2).

(** ** Simulated transports *)

(** Never answers, never raises. *)
Definition silent : transport :=
  {| world := unit; io := fun w _ => (w, Some []) |}.

(** A device that answers every read with [answer] while the link is at
    [target] and with nothing otherwise; its state is the link and the
    number of writes seen; the writes whose number [fails] selects
    raise. *)
Definition line_eqb (a b : line) : bool :=
  match a, b with
  | (b1, d1, r1), (b2, d2, r2) => (b1 =? b2) && Bool.eqb d1 d2 && Bool.eqb r1 r2
  end.

Definition device_io (target : line) (answer : list Z) (fails : nat -> bool)
    (w : line * nat) (o : op) : (line * nat) * option (list Z) :=
  match w, o with
  | ((_, d, r), n), OpOpen _ b => (((b, d, r), n), Some [])
  | ((b, _, r), n), OpSetDtr d => (((b, d, r), n), Some [])
  | ((b, d, _), n), OpSetRts r => (((b, d, r), n), Some [])
  | (l, n), OpWrite _ => ((l, S n), if fails n then None else Some [])
  | (l, n), OpRead _ => (w, Some (if line_eqb l target then answer else []))
  | _, _ => (w, Some [])
  end.

Definition sim_device (target : line) (answer : list Z) (fails : nat -> bool)
  : transport :=
  {| world := (line * nat)%type; io := device_io target answer fails |}.

Definition never : nat -> bool := fun _ => false.
Definition only (k : nat) : nat -> bool := fun n => Nat.eqb n k.

Definition power_on : line * nat := ((0, true, true), O).

(** A device that answers the first read it sees and no read after it,
    and never raises; its state is the number of reads seen. *)
Definition first_read_only (answer : list Z) : transport :=
  {| world := nat;
     io := fun n o =>
             match o with
             | OpRead _ => (S n, Some (if Nat.eqb n 0 then answer else []))
             | _ => (n, Some [])
             end |}.

(** ** Use of the port over a trace *)

(** Whether the port is open after a trace that starts with the port
    [opened] or not; [None] when the trace opens a port while one is
    open, releases a port that is not open or makes a request on a port
    that is not open. *)
Fixpoint port_after (opened : bool) (tr : list event) : option bool :=
  match tr with
  | [] => Some opened
  | Call (OpOpen _ _) (Some _) :: rest =>
      if opened then None else port_after true rest
  | Call (OpOpen _ _) None :: rest =>
      if opened then None else port_after false rest
  | Close :: rest => if opened then port_after false rest else None
  | Sleep _ :: rest => port_after opened rest
  | Call _ _ :: rest => if opened then port_after true rest else None
  end.

(** Events other than opening and releasing the port. *)
Definition is_inside (e : event) : bool :=
  match e with
  | Call (OpOpen _ _) _ => false
  | Close => false
  | _ => true
  end.

(** The attempts to open a port, with the port name and the baud rate. *)
Definition opens (tr : list event) : list (string * Z) :=
  flat_map (fun e => match e with
                     | Call (OpOpen p b) _ => [(p, b)]
                     | _ => []
                     end) tr.

(** A packet without data, as it goes on the wire: six bytes, the
    marker first, length byte 1, and a checksum that leaves 0. *)
Definition is_frame (pkt : list Z) : bool :=
  (List.length pkt =? 6)%nat && (nth 0 pkt 0 =? 0x7F) && (nth 2 pkt 0 =? 1) &&
  (calculate_crc pkt =? 0) && forallb is_byte pkt.

(** The events [main] may leave when the device path is [p]. *)
Definition is_expected (p : string) (e : event) : bool :=
  match e with
  | Call (OpOpen q b) _ => (q =? p)%string && existsb (Z.eqb b) default_baud_rates
  | Call (OpWrite pkt) _ => is_frame pkt
  | Call (OpRead n) _ => n =? 64
  | Sleep ms => ms =? 500
  | _ => true
  end.

(** A configuration, when one was found, is for port [p] at [baud]. *)
Definition settings_of (p : string) (baud : Z) (found : option settings) : Prop :=
  forall s, found = Some s -> port s = p /\ baudrate s = baud.

(** Every run of [m] leaves a trace in [P] and, when it does not raise,
    a value in [Q]. *)
Definition satisfies {T : transport} {A : Type}
    (P : list event -> Prop) (Q : A -> Prop) (m : M T A) : Prop :=
  forall w : world T,
    P (trace_of (m w)) /\
    match result_of (m w) with
    | Val a => Q a
    | Exc => True
    end.

(** * Properties *)

Example crc_sync : calculate_crc [0x7F; 0x80; 1; 0x11] = 0xFFA1.
Proof. vm_compute. reflexivity. Qed.

Example sync_packet_bytes : create_ssp_packet CMD_SYNC 0x80 [] = Some SYNC_PACKET.
Proof. vm_compute. reflexivity. Qed.

Example reset_packet_bytes : create_ssp_packet CMD_RESET 0x80 [] = Some RESET_PACKET.
Proof. vm_compute. reflexivity. Qed.

(** ** Frame codec *)

Section CodecFacts.

Lemma byte_range (b : Z) : is_byte b = true <-> 0 <= b < 256.
Proof. unfold is_byte. rewrite andb_true_iff, Z.leb_le, Z.ltb_lt. tauto. Qed.

Lemma land_1_mod2 (x : Z) : Z.land x 1 = x mod 2.
Proof. change 1 with (Z.ones 1). now rewrite Z.land_ones by lia. Qed.

(** The test [crc & 0x0001] reads the low bit. *)
Lemma crc_shift_step (crc : Z) : crc_shift crc = reg_step crc.
Proof.
  unfold crc_shift, reg_step.
  rewrite land_1_mod2, Z.bit0_eqb.
  pose proof (Z.mod_pos_bound crc 2 ltac:(lia)) as Hm.
  destruct (crc mod 2 =? 0) eqn:E0, (crc mod 2 =? 1) eqn:E1;
    try reflexivity; rewrite ?Z.eqb_eq, ?Z.eqb_neq in *; lia.
Qed.

Lemma iter_reg_steps (n : nat) (reg : Z) :
  Nat.iter n crc_shift reg = reg_steps n reg.
Proof.
  revert reg. induction n as [|n IH]; intro reg; [reflexivity|].
  rewrite Nat.iter_succ_r, crc_shift_step. apply IH.
Qed.

Lemma small_shiftr_8 (b : Z) : 0 <= b < 256 -> Z.shiftr b 8 = 0.
Proof.
  intro Hb. rewrite Z.shiftr_div_pow2 by lia. now apply Z.div_small.
Qed.

(** XOR with a byte changes the low byte of the register only. *)
Lemma xor_byte_low (reg b : Z) :
  0 <= b < 256 -> Z.lxor reg b = reg_xor_low reg b.
Proof.
  intro Hb. unfold reg_xor_low.
  rewrite (Z.div_mod (Z.lxor reg b) 256) at 1 by lia.
  f_equal.
  - f_equal. change 256 with (2 ^ 8).
    rewrite <- !Z.shiftr_div_pow2 by lia.
    rewrite Z.shiftr_lxor, (small_shiftr_8 b) by exact Hb. now rewrite Z.lxor_0_r.
  - change 256 with (2 ^ 8). rewrite <- !Z.land_ones by lia.
    apply Z.bits_inj'. intros n Hn.
    rewrite Z.land_spec, !Z.lxor_spec, Z.land_spec.
    destruct (Z.ltb_spec n 8) as [Hlt|Hge].
    + rewrite Z.ones_spec_low by lia. now rewrite !andb_true_r.
    + rewrite Z.ones_spec_high by lia. rewrite !andb_false_r.
      rewrite (Z.bits_above_log2 b n); [reflexivity | lia |].
      destruct (Z.eq_dec b 0) as [->|Hnz]; [simpl; lia|].
      assert (Z.log2 b < 8) by (apply Z.log2_lt_pow2; lia). lia.
Qed.

Lemma crc_update_reference (reg b : Z) :
  0 <= b < 256 -> crc_update reg b = reg_steps 8 (reg_xor_low reg b).
Proof.
  intro Hb. unfold crc_update.
  now rewrite iter_reg_steps, xor_byte_low.
Qed.

Lemma fold_crc_reference (data : list Z) :
  forallb is_byte data = true ->
  forall reg, fold_left crc_update data reg = crc16_from reg data.
Proof.
  induction data as [|b rest IH]; intros Hall reg; [reflexivity|].
  simpl in Hall. apply andb_true_iff in Hall as [Hb Hrest].
  apply byte_range in Hb.
  cbn [fold_left crc16_from]. rewrite crc_update_reference by exact Hb.
  now apply IH.
Qed.

(** The register stays within sixteen bits. *)
Lemma lxor_word (a b : Z) : is_word a -> is_word b -> is_word (Z.lxor a b).
Proof.
  unfold is_word. intros Ha Hb.
  assert (Hnn : 0 <= Z.lxor a b) by (apply Z.lxor_nonneg; lia).
  split; [exact Hnn|].
  destruct (Z.eq_dec (Z.lxor a b) 0) as [->|Hnz]; [lia|].
  change 65536 with (2 ^ 16). apply Z.log2_lt_pow2; [lia|].
  pose proof (Z.log2_lxor a b ltac:(lia) ltac:(lia)) as Hl.
  assert (Z.log2 a < 16).
  { destruct (Z.eq_dec a 0) as [->|]; [simpl; lia|]. apply Z.log2_lt_pow2; lia. }
  assert (Z.log2 b < 16).
  { destruct (Z.eq_dec b 0) as [->|]; [simpl; lia|]. apply Z.log2_lt_pow2; lia. }
  lia.
Qed.

Lemma crc_shift_word (crc : Z) : is_word crc -> is_word (crc_shift crc).
Proof.
  intro Hc. unfold crc_shift.
  assert (Hs : is_word (Z.shiftr crc 1)).
  { unfold is_word in *. rewrite Z.shiftr_div_pow2 by lia. change (2 ^ 1) with 2.
    split; [apply Z.div_pos; lia | apply Z.div_lt_upper_bound; lia]. }
  destruct (Z.land crc 1 =? 0); [exact Hs|].
  apply lxor_word; [exact Hs | unfold is_word; lia].
Qed.

Lemma crc_update_word (crc b : Z) :
  is_word crc -> 0 <= b < 256 -> is_word (crc_update crc b).
Proof.
  intros Hc Hb. unfold crc_update.
  assert (Hiter : forall (n : nat) (x : Z), is_word x -> is_word (Nat.iter n crc_shift x)).
  { induction n as [|n IH]; intros x Hx; [exact Hx|].
    rewrite Nat.iter_succ. apply crc_shift_word, IH, Hx. }
  apply Hiter, lxor_word; [exact Hc | unfold is_word; lia].
Qed.

Lemma fold_crc_word (data : list Z) :
  forallb is_byte data = true ->
  forall reg, is_word reg -> is_word (fold_left crc_update data reg).
Proof.
  induction data as [|b rest IH]; intros Hall reg Hreg; [exact Hreg|].
  simpl in Hall. apply andb_true_iff in Hall as [Hb Hrest].
  apply byte_range in Hb. cbn [fold_left].
  apply IH; [exact Hrest | now apply crc_update_word].
Qed.

Lemma calculate_crc_word (data : list Z) :
  forallb is_byte data = true -> is_word (calculate_crc data).
Proof.
  intro Hall. apply fold_crc_word; [exact Hall | unfold is_word; lia].
Qed.

Lemma land_255_byte (x : Z) : is_byte (Z.land x 0xFF) = true.
Proof.
  apply byte_range. change 0xFF with (Z.ones 8).
  rewrite Z.land_ones by lia. apply Z.mod_pos_bound. lia.
Qed.

(** The two trailer bytes put together give the checksum back. *)
Lemma little_endian_word (crc : Z) :
  is_word crc ->
  Z.land crc 0xFF + 256 * Z.land (Z.shiftr crc 8) 0xFF = crc.
Proof.
  unfold is_word. intro Hc. change 0xFF with (Z.ones 8).
  rewrite !Z.land_ones, Z.shiftr_div_pow2 by lia. change (2 ^ 8) with 256.
  assert (0 <= crc / 256 < 256)
    by (split; [apply Z.div_pos; lia | apply Z.div_lt_upper_bound; lia]).
  rewrite (Z.mod_small (crc / 256)) by lia.
  pose proof (Z.div_mod crc 256 ltac:(lia)). lia.
Qed.

End CodecFacts.

(** C1. On every sequence of bytes [calculate_crc] is the CRC-16 of the
    specification: register 0xFFFF at the start, every byte XORed into
    the low byte of the register and followed by eight shifts to the
    right, each with an XOR by 0x8408 exactly when the bit shifted out
    was set, and no XOR at the end.  The empty sequence gives 0xFFFF, and
    equal inputs give equal checksums. *)
Theorem calculate_crc_is_reference (data : list Z)
    (Hbytes : forallb is_byte data = true) :
  calculate_crc data = crc16_reference data /\
  calculate_crc [] = 0xFFFF /\
  (forall other : list Z, other = data -> calculate_crc other = calculate_crc data).
Proof.
  split; [|split].
  - unfold calculate_crc, crc16_reference. now apply fold_crc_reference.
  - reflexivity.
  - intros other ->. reflexivity.
Qed.

Lemma calculate_crc_is_reference_witness :
  calculate_crc [0x7F; 0x80; 0x01; 0x11] = crc16_reference [0x7F; 0x80; 0x01; 0x11] /\
  calculate_crc [] = 0xFFFF /\
  (forall other : list Z, other = [0x7F; 0x80; 0x01; 0x11] ->
     calculate_crc other = calculate_crc [0x7F; 0x80; 0x01; 0x11]).
Proof. apply (calculate_crc_is_reference [0x7F; 0x80; 0x01; 0x11]). reflexivity. Defined.

Lemma packet_body_bytes (command sequence : Z) (data : list Z) :
  is_byte command = true -> is_byte sequence = true ->
  forallb is_byte data = true -> (List.length data <= 254)%nat ->
  forallb is_byte
    ([0x7F; sequence; Z.of_nat (List.length data) + 1; command] ++ data) = true.
Proof.
  intros Hcmd Hseq Hdata Hlen.
  rewrite forallb_app, Hdata, andb_true_r. cbn [forallb].
  rewrite Hcmd, Hseq.
  assert (Hl : is_byte (Z.of_nat (List.length data) + 1) = true)
    by (apply byte_range; lia).
  rewrite Hl. reflexivity.
Qed.

(** C2. For a command byte, a sequence byte and at most 254 data bytes,
    [create_ssp_packet] returns the marker 0x7F, the sequence byte, the
    length byte [len(data) + 1], the command byte, the data and two
    trailer bytes; the trailer is the little-endian encoding of the
    checksum of all the bytes before it. *)
Theorem create_ssp_packet_layout (command sequence : Z) (data : list Z)
    (Hcmd : is_byte command = true) (Hseq : is_byte sequence = true)
    (Hdata : forallb is_byte data = true)
    (Hlen : (List.length data <= 254)%nat) :
  let body := [0x7F; sequence; Z.of_nat (List.length data) + 1; command] ++ data in
  exists crc_low crc_high : Z,
    let packet := body ++ [crc_low; crc_high] in
    create_ssp_packet command sequence data = Some packet /\
    nth 2 packet 0 = Z.of_nat (List.length data) + 1 /\
    firstn (List.length packet - 2) packet = body /\
    is_byte crc_low = true /\ is_byte crc_high = true /\
    crc_low + 256 * crc_high = calculate_crc body.
Proof.
  intros body.
  pose proof (packet_body_bytes command sequence data Hcmd Hseq Hdata Hlen) as Hbody.
  fold body in Hbody.
  exists (Z.land (calculate_crc body) 0xFF),
         (Z.land (Z.shiftr (calculate_crc body) 8) 0xFF).
  cbv zeta. repeat split.
  - unfold create_ssp_packet, to_bytes. fold body.
    rewrite forallb_app, Hbody. cbn [forallb].
    now rewrite !land_255_byte.
  - rewrite length_app. cbn [List.length].
    replace (List.length body + 2 - 2)%nat with (List.length body + 0)%nat by lia.
    rewrite firstn_app_2. cbn [firstn]. apply app_nil_r.
  - apply land_255_byte.
  - apply land_255_byte.
  - apply little_endian_word, calculate_crc_word, Hbody.
Qed.

Lemma create_ssp_packet_layout_witness :
  exists crc_low crc_high : Z,
    create_ssp_packet CMD_POLL 0x83 [1; 2] =
      Some ([0x7F; 0x83; 3; CMD_POLL; 1; 2] ++ [crc_low; crc_high]) /\
    crc_low + 256 * crc_high = calculate_crc [0x7F; 0x83; 3; CMD_POLL; 1; 2].
Proof.
  destruct (create_ssp_packet_layout CMD_POLL 0x83 [1; 2]
              eq_refl eq_refl eq_refl ltac:(simpl; lia))
    as (lo & hi & Hpkt & _ & _ & _ & _ & Hcrc).
  exists lo, hi. split; [exact Hpkt | exact Hcrc].
Defined.

(** [bytes(...)] refuses a length element of 256 or more. *)
Lemma to_bytes_rejects (pre post : list Z) (x : Z) :
  256 <= x -> to_bytes (pre ++ x :: post) = None.
Proof.
  intro Hx. unfold to_bytes. rewrite forallb_app. cbn [forallb].
  assert (Hb : is_byte x = false).
  { unfold is_byte. destruct (Z.ltb_spec x 256); [lia|]. apply andb_false_r. }
  rewrite Hb, andb_false_r. reflexivity.
Qed.

(** C9, as amended.  With more than 254 data bytes the length element
    [len(data) + 1] is no byte and the conversion to [bytes] raises:
    [create_ssp_packet] returns no packet, wrapped or otherwise. *)
Theorem create_ssp_packet_oversized (command sequence : Z) (data : list Z)
    (Hlen : (254 < List.length data)%nat) :
  create_ssp_packet command sequence data = None.
Proof.
  unfold create_ssp_packet.
  change ([0x7F; sequence; Z.of_nat (List.length data) + 1; command] ++ data)
    with ([0x7F; sequence] ++ (Z.of_nat (List.length data) + 1) :: command :: data).
  rewrite <- app_assoc. cbn [app].
  apply (to_bytes_rejects [0x7F; sequence]). lia.
Qed.

Lemma create_ssp_packet_oversized_witness :
  create_ssp_packet CMD_POLL 0x80 (repeat 0 255) = None.
Proof.
  apply (create_ssp_packet_oversized CMD_POLL 0x80 (repeat 0 255)).
  rewrite repeat_length. lia.
Defined.

(** C9, as stated, fails for 255 zero bytes: no packet comes back, so
    none with the length byte [(255 + 1) mod 256]. *)
Lemma create_ssp_packet_no_wrap :
  ~ exists packet : list Z,
      create_ssp_packet CMD_POLL 0x80 (repeat 0 255) = Some packet /\
      nth 2 packet 0 = (Z.of_nat (List.length (repeat 0 255)) + 1) mod 256.
Proof.
  intros (packet & Hpkt & _).
  assert (Hnone : create_ssp_packet CMD_POLL 0x80 (repeat 0 255) = None)
    by (vm_compute; reflexivity).
  congruence.
Qed.

(** ** Traces *)

Section TraceFacts.

Lemma line_after_app (l : line) (t1 t2 : list event) :
  line_after l (t1 ++ t2) = line_after (line_after l t1) t2.
Proof. unfold line_after. apply fold_left_app. Qed.

Lemma probes_from_app (t1 t2 : list event) (l : line) :
  probes_from l (t1 ++ t2) =
  probes_from l t1 ++ probes_from (line_after l t1) t2.
Proof.
  revert l. induction t1 as [|e t1 IH]; intro l; [reflexivity|].
  destruct e as [[]| |]; cbn [app probes_from]; rewrite IH; reflexivity.
Qed.

Lemma quiet_app (t1 t2 : list event) :
  quiet (t1 ++ t2) = quiet t1 && quiet t2.
Proof. apply forallb_app. Qed.

Lemma faultless_app (t1 t2 : list event) :
  faultless (t1 ++ t2) = faultless t1 && faultless t2.
Proof. apply forallb_app. Qed.

Lemma subseq_refl {A : Type} (l : list A) : subseq l l.
Proof. induction l; constructor; assumption. Qed.

Lemma subseq_nil_l {A : Type} (l : list A) : subseq [] l.
Proof. induction l; constructor; assumption. Qed.

Lemma subseq_app {A : Type} (a a' b b' : list A) :
  subseq a a' -> subseq b b' -> subseq (a ++ b) (a' ++ b').
Proof.
  intros Ha Hb. induction Ha; cbn [app]; try constructor; assumption.
Qed.

Lemma subseq_app_l {A : Type} (a a' b' : list A) :
  subseq a a' -> subseq a (a' ++ b').
Proof.
  intro Ha. rewrite <- (app_nil_r a). apply subseq_app; [exact Ha | apply subseq_nil_l].
Qed.

Lemma subseq_length {A : Type} (a b : list A) :
  subseq a b -> (List.length a <= List.length b)%nat.
Proof. induction 1; cbn [List.length]; lia. Qed.

End TraceFacts.

(** ** Running the client on an arbitrary transport *)

Section RunFacts.

Variable T : transport.

Lemma bind_inv {A B : Type} (m : M T A) (k : A -> M T B) (w w' : world T)
    (t : list event) (r : outcome B) :
  bind m k w = (t, w', r) ->
  (m w = (t, w', Exc) /\ r = Exc) \/
  (exists t1 w1 a t2, m w = (t1, w1, Val a) /\ k a w1 = (t2, w', r) /\ t = t1 ++ t2).
Proof.
  unfold bind. destruct (m w) as [[t1 w1] [a|]].
  - destruct (k a w1) as [[t2 w2] r2] eqn:Hk. intro H. injection H as <- <- <-.
    right. exists t1, w1, a, t2. auto.
  - intro H. injection H as <- <- <-. left. auto.
Qed.

Lemma catch_none_inv {A : Type} (m : M T (option A)) (w w' : world T)
    (t : list event) (r : outcome (option A)) :
  catch m (ret None) w = (t, w', r) ->
  (exists x, m w = (t, w', Val x) /\ r = Val x) \/
  (m w = (t, w', Exc) /\ r = Val None).
Proof.
  unfold catch, ret. destruct (m w) as [[t1 w1] [a|]].
  - intro H. injection H as <- <- <-. left. eauto.
  - intro H. injection H as <- <- <-. right. now rewrite app_nil_r.
Qed.

Lemma with_serial_inv {A : Type} (p : string) (baud : Z) (body : M T A)
    (w w' : world T) (t : list event) (r : outcome A) :
  with_serial p baud body w = (t, w', r) ->
  (t = [Call (OpOpen p baud) None] /\ r = Exc) \/
  (exists bs w1 t1, body w1 = (t1, w', r) /\
     t = Call (OpOpen p baud) (Some bs) :: t1 ++ [Close]).
Proof.
  unfold with_serial. destruct (io T w (OpOpen p baud)) as [w1 [bs|]].
  - destruct (body w1) as [[t1 w2] r1] eqn:Hb. intro H. injection H as <- <- <-.
    right. exists bs, w1, t1. auto.
  - intro H. injection H as <- <- <-. left. auto.
Qed.

End RunFacts.

Section DiscoveryFacts.

Variable T : transport.

Ltac run_io H :=
  repeat match type of H with
         | context [io T ?w ?o] =>
             let w1 := fresh "w" in
             let bs := fresh "bs" in
             destruct (io T w o) as [w1 [bs|]]; cbv beta iota in H
         | context [nonempty ?bs] =>
             is_var bs; destruct bs; cbn [nonempty] in H; cbv beta iota in H
         end;
  cbn [app] in H.

Ltac last_event := eexists; split; reflexivity.

Ltac ends_with_fault :=
  first
    [ solve [refine (ex_intro _ [] _); last_event]
    | solve [refine (ex_intro _ [_] _); last_event]
    | solve [refine (ex_intro _ [_; _] _); last_event]
    | solve [refine (ex_intro _ [_; _; _] _); last_event]
    | solve [refine (ex_intro _ [_; _; _; _] _); last_event]
    | solve [refine (ex_intro _ [_; _; _; _; _] _); last_event]
    | solve [refine (ex_intro _ [_; _; _; _; _; _] _); last_event]
    | solve [refine (ex_intro _ [_; _; _; _; _; _; _] _); last_event]
    | solve [refine (ex_intro _ [_; _; _; _; _; _; _; _] _); last_event]
    | solve [refine (ex_intro _ [_; _; _; _; _; _; _; _; _] _); last_event]
    | solve [refine (ex_intro _ [_; _; _; _; _; _; _; _; _; _] _); last_event]
    | solve [refine (ex_intro _ [_; _; _; _; _; _; _; _; _; _; _] _); last_event] ].

Lemma probe_run (p : string) (baud : Z) (d r d0 r0 : bool) (w w' : world T)
    (t : list event) (res : outcome (option settings)) :
  probe p baud (d, r) w = (t, w', res) ->
  let l := (baud, d0, r0) in
  let both := [((baud, d, r), SYNC_PACKET); ((baud, d, r), RESET_PACKET)] in
  subseq (probes_from l t) both /\
  (faultless t = true -> exists rest, both = probes_from l t ++ rest) /\
  match res with
  | Val None =>
      quiet t = true /\ faultless t = true /\
      probes_from l t = both /\ line_after l t = (baud, d, r)
  | Exc =>
      quiet t = true /\ faultless t = false /\
      exists pre o, t = pre ++ [Call o None] /\ faultless pre = true
  | Val (Some s) =>
      s = {| port := p; baudrate := baud; dtr := d; rts := r |} /\
      faultless t = true /\
      exists pre bs,
        t = pre ++ [Call (OpRead 64) (Some bs)] /\ bs <> [] /\
        quiet pre = true /\ line_after l pre = (baud, d, r)
  end.
Proof.
  intro H.
  cbv beta iota delta [probe bind call sleep raise_none ret] in H.
  rewrite sync_packet_bytes, reset_packet_bytes in H.
  cbv beta iota in H.
  run_io H.
  all: injection H as <- <- <-.
  all: cbv zeta.
  all: cbn [app probes_from line_step faultless quiet forallb is_fault is_response negb andb line_after fold_left].
  all: split; [solve [eauto 6 using subseq_nil, subseq_skip, subseq_keep]|].
  all: split; [first [discriminate | intros _; eexists; reflexivity]|].
  all: repeat split; try reflexivity.
  all: first
    [ solve [refine (ex_intro _ [_; _; _; _; _; _] _); eexists;
             split; [reflexivity | split; [discriminate | split; reflexivity]]]
    | solve [refine (ex_intro _ [_; _; _; _; _; _; _; _; _; _] _); eexists;
             split; [reflexivity | split; [discriminate | split; reflexivity]]]
    | solve [ends_with_fault] ].
Qed.

Lemma probe_order_cons (baud : Z) (rest : list Z) :
  probe_order (baud :: rest) =
  flat_map candidate_probes (candidates_at baud configurations) ++ probe_order rest.
Proof. unfold probe_order, candidates. cbn [flat_map]. apply flat_map_app. Qed.

Lemma probe_all_run (p : string) (baud : Z) (cfgs : list (bool * bool)) :
  forall (d0 r0 : bool) (w w' : world T) (t : list event)
         (res : outcome (option settings)),
  probe_all p baud cfgs w = (t, w', res) ->
  let l := (baud, d0, r0) in
  let order := flat_map candidate_probes (candidates_at baud cfgs) in
  subseq (probes_from l t) order /\
  (faultless t = true -> exists rest, order = probes_from l t ++ rest) /\
  match res with
  | Val None =>
      quiet t = true /\ faultless t = true /\ probes_from l t = order
  | Exc =>
      quiet t = true /\ faultless t = false /\
      exists pre o, t = pre ++ [Call o None] /\ faultless pre = true
  | Val (Some s) =>
      faultless t = true /\
      exists pre bs d r,
        In (d, r) cfgs /\
        s = {| port := p; baudrate := baud; dtr := d; rts := r |} /\
        t = pre ++ [Call (OpRead 64) (Some bs)] /\ bs <> [] /\
        quiet pre = true /\ line_after l pre = (baud, d, r)
  end.
Proof.
  induction cfgs as [|[d r] cfgs IH]; intros d0 r0 w w' t res H.
  - injection H as <- <- <-. cbn. repeat split; try constructor.
    intros _. exists []. reflexivity.
  - cbn [probe_all] in H. cbv zeta.
    change (flat_map candidate_probes (candidates_at baud ((d, r) :: cfgs)))
      with ([((baud, d, r), SYNC_PACKET); ((baud, d, r), RESET_PACKET)] ++
            flat_map candidate_probes (candidates_at baud cfgs)).
    apply bind_inv in H as [[Hm ->] | (t1 & w1 & a & t2 & Hm & Hk & ->)].
    + apply (probe_run p baud d r d0 r0) in Hm as (Hsub & _ & Hq & Hf & Hend).
      split; [now apply subseq_app_l|].
      split; [intro Hc; congruence | auto].
    + apply (probe_run p baud d r d0 r0) in Hm as (Hsub & Hpre & Hres).
      destruct a as [s|].
      * injection Hk as <- <- <-. rewrite app_nil_r.
        destruct Hres as (-> & Hf & pre & bs & -> & Hbs & Hq & Hl).
        split; [now apply subseq_app_l|].
        split.
        { intros _. destruct (Hpre Hf) as [rest Hrest].
          eexists. rewrite Hrest, <- app_assoc. reflexivity. }
        split; [exact Hf|].
        exists pre, bs, d, r. repeat split; auto. now left.
      * destruct Hres as (Hq & Hf & Hp & Hl).
        specialize (IH d r w1 w' t2 res Hk). cbv zeta in IH.
        destruct IH as (IHsub & IHpre & IHres).
        rewrite probes_from_app, Hl, quiet_app, faultless_app, Hq, Hf.
        cbn [andb].
        split; [now apply subseq_app|].
        split.
        { intro Hf2. destruct (IHpre Hf2) as [rest Hrest].
          exists rest. rewrite Hp, Hrest, <- app_assoc. reflexivity. }
        destruct res as [[s|]|].
        -- destruct IHres as (Hf2 & pre & bs & d1 & r1 & Hin & -> & -> & Hbs & Hq2 & Hl2).
           split; [exact Hf2|].
           exists (t1 ++ pre), bs, d1, r1.
           rewrite quiet_app, Hq, line_after_app, Hl, app_assoc.
           repeat split; auto. now right.
        -- destruct IHres as (Hq2 & Hf2 & Hp2).
           rewrite Hp, Hp2. auto.
        -- destruct IHres as (Hq2 & Hf2 & pre & o & -> & Hfp).
           repeat split; auto.
           exists (t1 ++ pre), o. rewrite faultless_app, Hf, Hfp, app_assoc. auto.
Qed.

Lemma probes_opened (p : string) (baud : Z) (bs : list Z) (d0 r0 : bool)
    (b0 : Z) (t1 : list event) :
  probes_from (b0, d0, r0) (Call (OpOpen p baud) (Some bs) :: t1 ++ [Close]) =
  probes_from (baud, d0, r0) t1.
Proof.
  cbn [probes_from line_step]. rewrite probes_from_app. cbn [probes_from].
  apply app_nil_r.
Qed.

Lemma quiet_opened (o : op) (a : option (list Z)) (t1 : list event) :
  (forall n, o <> OpRead n) ->
  quiet (Call o a :: t1 ++ [Close]) = quiet t1.
Proof.
  intro Ho. unfold quiet. cbn [forallb]. rewrite forallb_app. cbn [forallb is_response negb].
  rewrite !andb_true_r.
  destruct o; try reflexivity. now destruct (Ho size).
Qed.

Lemma faultless_opened (o : op) (bs : list Z) (t1 : list event) :
  faultless (Call o (Some bs) :: t1 ++ [Close]) = faultless t1.
Proof.
  unfold faultless. cbn [forallb is_fault negb]. rewrite forallb_app.
  cbn [forallb is_fault negb]. now rewrite !andb_true_r.
Qed.

Lemma test_baud_run (p : string) (baud : Z) (l : line) (w w' : world T)
    (t : list event) (res : outcome (option settings)) :
  test_baud p baud w = (t, w', res) ->
  let order := flat_map candidate_probes (candidates_at baud configurations) in
  subseq (probes_from l t) order /\
  (faultless t = true -> exists rest, order = probes_from l t ++ rest) /\
  match res with
  | Val None =>
      quiet t = true /\ faultless t = true /\ probes_from l t = order
  | Exc =>
      quiet t = true /\ faultless t = false /\
      exists pre o,
        faultless pre = true /\
        (t = pre ++ [Call o None] \/ t = pre ++ [Call o None; Close])
  | Val (Some s) =>
      faultless t = true /\
      exists pre bs d r,
        In (d, r) configurations /\
        s = {| port := p; baudrate := baud; dtr := d; rts := r |} /\
        t = pre ++ [Call (OpRead 64) (Some bs); Close] /\ bs <> [] /\
        quiet pre = true /\ line_after l pre = (baud, d, r)
  end.
Proof.
  intro H. cbv zeta. unfold test_baud in H. destruct l as [[b0 d0] r0].
  apply with_serial_inv in H as [[-> ->] | (bs & w1 & t1 & Hbody & ->)].
  - cbn. split; [apply subseq_nil_l|]. split; [discriminate|].
    repeat split. exists [], (OpOpen p baud). auto.
  - rewrite probes_opened, faultless_opened, quiet_opened by discriminate.
    apply (probe_all_run p baud configurations d0 r0) in Hbody
      as (Hsub & Hpre & Hres).
    split; [exact Hsub|]. split; [exact Hpre|].
    destruct res as [[s|]|].
    + destruct Hres as (Hf & pre & bs1 & d & r & Hin & -> & -> & Hbs & Hq & Hl).
      split; [exact Hf|].
      exists (Call (OpOpen p baud) (Some bs) :: pre), bs1, d, r.
      split; [exact Hin|]. split; [reflexivity|].
      split; [cbn [app]; now rewrite <- app_assoc|].
      split; [exact Hbs|]. split; [exact Hq|].
      unfold line_after in *. cbn [fold_left line_step]. exact Hl.
    + exact Hres.
    + destruct Hres as (Hq & Hf & pre & o & -> & Hfp).
      repeat split; auto.
      exists (Call (OpOpen p baud) (Some bs) :: pre), o.
      split; [exact Hfp|]. right. cbn [app]. now rewrite <- app_assoc.
Qed.

Lemma test_serial_port_run (p : string) (bauds : list Z) :
  forall (l : line) (w w' : world T) (t : list event)
         (res : outcome (option settings)),
  test_serial_port p bauds w = (t, w', res) ->
  subseq (probes_from l t) (probe_order bauds) /\
  (faultless t = true -> exists rest, probe_order bauds = probes_from l t ++ rest) /\
  match res with
  | Val None =>
      quiet t = true /\
      (faultless t = true -> probes_from l t = probe_order bauds)
  | Exc => False
  | Val (Some s) =>
      exists pre bs baud d r,
        In baud bauds /\ In (d, r) configurations /\
        s = {| port := p; baudrate := baud; dtr := d; rts := r |} /\
        t = pre ++ [Call (OpRead 64) (Some bs); Close] /\ bs <> [] /\
        quiet pre = true /\ line_after l pre = (baud, d, r)
  end.
Proof.
  induction bauds as [|baud rest IH]; intros l w w' t res H.
  - injection H as <- <- <-. cbn. repeat split; try constructor.
    intros _. exists []. reflexivity.
  - cbn [test_serial_port] in H. rewrite probe_order_cons.
    apply bind_inv in H as [[Hm ->] | (t1 & w1 & a & t2 & Hm & Hk & ->)].
    { apply catch_none_inv in Hm as [(x & _ & Hx) | (_ & Hx)]; discriminate. }
    assert (Hbaud : exists r1, test_baud p baud w = (t1, w1, r1) /\
                      (r1 = Val a \/ (r1 = Exc /\ a = None))).
    { apply catch_none_inv in Hm as [(x & Hm & Hx) | (Hm & Hx)].
      - injection Hx as ->. eauto.
      - injection Hx as ->. eauto. }
    destruct Hbaud as (r1 & Hrun & Hr1).
    apply (test_baud_run p baud l) in Hrun as (Hsub & Hpre & Hres).
    cbv zeta in Hsub, Hpre.
    destruct a as [s|].
    + injection Hk as <- <- <-. rewrite app_nil_r.
      destruct Hr1 as [-> | [_ Hno]]; [|discriminate].
      destruct Hres as (Hf & pre & bs & d & r & Hin & -> & -> & Hbs & Hq & Hl).
      split; [now apply subseq_app_l|].
      split.
      { intros _. destruct (Hpre Hf) as [more Hmore].
        eexists. rewrite Hmore, <- app_assoc. reflexivity. }
      exists pre, bs, baud, d, r. repeat split; auto. now left.
    + specialize (IH (line_after l t1) w1 w' t2 res Hk).
      destruct IH as (IHsub & IHpre & IHres).
      rewrite probes_from_app.
      split; [now apply subseq_app|].
      assert (Hq1 : quiet t1 = true)
        by (destruct Hr1 as [-> | [-> _]]; tauto).
      assert (Hfull : faultless t1 = true ->
                probes_from l t1 =
                flat_map candidate_probes (candidates_at baud configurations)).
      { destruct Hr1 as [-> | [-> _]]; [tauto|].
        destruct Hres as (_ & Hf & _). congruence. }
      split.
      { rewrite faultless_app, andb_true_iff. intros [Hf1 Hf2].
        destruct (IHpre Hf2) as [more Hmore].
        exists more. rewrite (Hfull Hf1), Hmore, <- app_assoc. reflexivity. }
      destruct res as [[s|]|].
      * destruct IHres as (pre & bs & b1 & d & r & Hin & Hcfg & -> & -> & Hbs & Hq & Hl).
        exists (t1 ++ pre), bs, b1, d, r.
        rewrite quiet_app, Hq1, line_after_app, app_assoc.
        repeat split; auto. now right.
      * destruct IHres as (Hq2 & Hp2).
        rewrite quiet_app, Hq1, Hq2, faultless_app.
        split; [reflexivity|]. rewrite andb_true_iff. intros [Hf1 Hf2].
        now rewrite (Hfull Hf1), (Hp2 Hf2).
      * exact IHres.
Qed.

(** A transport that never raises and never returns a byte. *)
Section Silent.

Hypothesis Hsilent : forall (w : world T) (o : op), snd (io T w o) = Some [].

Ltac run_silent H :=
  repeat match type of H with
         | context [io T ?w ?o] =>
             let w1 := fresh "w" in
             let a := fresh "a" in
             let E := fresh "E" in
             pose proof (Hsilent w o) as E;
             destruct (io T w o) as [w1 a]; cbn [snd] in E; subst a;
             cbn [nonempty] in H; cbv beta iota in H
         end;
  cbn [app] in H.

Lemma probe_silent (p : string) (baud : Z) (cfg : bool * bool)
    (w w' : world T) (t : list event) (res : outcome (option settings)) :
  probe p baud cfg w = (t, w', res) -> res = Val None /\ faultless t = true.
Proof.
  intro H. destruct cfg as [d r].
  cbv beta iota delta [probe bind call sleep raise_none ret] in H.
  rewrite sync_packet_bytes, reset_packet_bytes in H.
  cbv beta iota in H.
  run_silent H.
  injection H as <- <- <-. split; reflexivity.
Qed.

Lemma probe_all_silent (p : string) (baud : Z) (cfgs : list (bool * bool)) :
  forall (w w' : world T) (t : list event) (res : outcome (option settings)),
  probe_all p baud cfgs w = (t, w', res) -> res = Val None /\ faultless t = true.
Proof.
  induction cfgs as [|cfg cfgs IH]; intros w w' t res H.
  - injection H as <- <- <-. split; reflexivity.
  - cbn [probe_all] in H.
    apply bind_inv in H as [[Hm ->] | (t1 & w1 & a & t2 & Hm & Hk & ->)];
      apply probe_silent in Hm as [Hr Hf]; [discriminate|].
    injection Hr as ->. apply IH in Hk as [-> Hf2].
    rewrite faultless_app, Hf, Hf2. split; reflexivity.
Qed.

Lemma test_baud_silent (p : string) (baud : Z)
    (w w' : world T) (t : list event) (res : outcome (option settings)) :
  test_baud p baud w = (t, w', res) -> res = Val None /\ faultless t = true.
Proof.
  unfold test_baud, with_serial. intro H.
  pose proof (Hsilent w (OpOpen p baud)) as E.
  destruct (io T w (OpOpen p baud)) as [w1 a]. cbn [snd] in E. subst a.
  destruct (probe_all p baud configurations w1) as [[t1 w2] r1] eqn:Hb.
  injection H as <- <- <-.
  apply probe_all_silent in Hb as [-> Hf].
  now rewrite faultless_opened.
Qed.

Lemma test_serial_port_silent (p : string) (bauds : list Z) :
  forall (w w' : world T) (t : list event) (res : outcome (option settings)),
  test_serial_port p bauds w = (t, w', res) ->
  res = Val None /\ faultless t = true.
Proof.
  induction bauds as [|baud rest IH]; intros w w' t res H.
  - injection H as <- <- <-. split; reflexivity.
  - cbn [test_serial_port] in H.
    apply bind_inv in H as [[Hm ->] | (t1 & w1 & a & t2 & Hm & Hk & ->)].
    { apply catch_none_inv in Hm as [(x & _ & Hx) | (_ & Hx)]; discriminate. }
    apply catch_none_inv in Hm as [(x & Hm & Hx) | (Hm & Hx)];
      apply test_baud_silent in Hm as [Hr Hf]; [|discriminate].
    injection Hx as ->. injection Hr as ->.
    apply IH in Hk as [-> Hf2].
    rewrite faultless_app, Hf, Hf2. split; reflexivity.
Qed.

End Silent.

End DiscoveryFacts.

(** C3. Against a transport that never returns a byte and never raises,
    discovery over the four default baud rates writes exactly 32 probe
    packets, a SYNC and then a RESET for each of the sixteen candidates
    in their order, and returns [None] without raising. *)
Theorem discovery_exhausts_silent_transport (T : transport) (p : string)
    (w : world T)
    (Hsilent : forall (w0 : world T) (o : op), snd (io T w0 o) = Some []) :
  let run := test_serial_port p default_baud_rates w in
  result_of run = Val None /\
  probes (trace_of run) = probe_order default_baud_rates /\
  List.length (writes (trace_of run)) = 32%nat /\
  writes (trace_of run) = List.concat (repeat [SYNC_PACKET; RESET_PACKET] 16) /\
  List.length (candidates default_baud_rates) = 16%nat.
Proof.
  intro run. subst run.
  destruct (test_serial_port p default_baud_rates w) as [[t w'] res] eqn:H.
  unfold result_of, trace_of. cbn [fst snd].
  pose proof (test_serial_port_silent T Hsilent _ _ _ _ _ _ H) as [-> Hf].
  pose proof (test_serial_port_run T _ _ (0, false, false) _ _ _ _ H)
    as (_ & _ & _ & Hfull).
  specialize (Hfull Hf). fold (probes t) in Hfull.
  unfold writes. rewrite Hfull.
  repeat split; reflexivity.
Qed.

Lemma discovery_exhausts_silent_transport_witness :
  result_of (@test_serial_port silent "/dev/ttyUSB0" default_baud_rates tt) = Val None /\
  List.length
    (writes (trace_of (@test_serial_port silent "/dev/ttyUSB0" default_baud_rates tt)))
  = 32%nat.
Proof.
  destruct (discovery_exhausts_silent_transport silent "/dev/ttyUSB0" tt
              (fun _ _ => eq_refl)) as (Hres & _ & Hlen & _).
  split; [exact Hres | exact Hlen].
Defined.

(** C4. On any transport the probe packets leave in the fixed order:
    baud rates as listed, the handshake configurations (false, false),
    (true, false), (false, true), (true, true) under each, SYNC before
    RESET at each candidate; a run without faults sends an initial
    segment of that order.  Discovery returns a configuration exactly
    when a read returned bytes; that read is the first to do so, the
    configuration is the state of the link at that read, and nothing but
    the release of the port follows it.  A device answering only at
    38400 baud with DTR on and RTS off is found at exactly this triple,
    after the eighteen probes of the nine candidates before it and the
    SYNC of its own. *)
Theorem discovery_order_and_early_exit (T : transport) (p : string)
    (bauds : list Z) (w : world T)
    (answer_head : Z) (answer_tail : list Z) (b0 : Z) (d0 r0 : bool) (n0 : nat) :
  let run := test_serial_port p bauds w in
  let found :=
    @test_serial_port
      (sim_device (38400, true, false) (answer_head :: answer_tail) never)
      p default_baud_rates ((b0, d0, r0), n0) in
  configurations = [(false, false); (true, false); (false, true); (true, true)] /\
  subseq (probes (trace_of run)) (probe_order bauds) /\
  (faultless (trace_of run) = true ->
   exists rest, probe_order bauds = probes (trace_of run) ++ rest) /\
  ((result_of run = Val None /\ quiet (trace_of run) = true) \/
   (exists pre bs baud d r,
      trace_of run = pre ++ [Call (OpRead 64) (Some bs); Close] /\
      bs <> [] /\ quiet pre = true /\
      line_after (0, false, false) pre = (baud, d, r) /\
      result_of run =
        Val (Some {| port := p; baudrate := baud; dtr := d; rts := r |}))) /\
  result_of found =
    Val (Some {| port := p; baudrate := 38400; dtr := true; rts := false |}) /\
  probes (trace_of found) = firstn 19 (probe_order default_baud_rates).
Proof.
  intros run found. split; [reflexivity|].
  subst run. destruct (test_serial_port p bauds w) as [[t w'] res] eqn:H.
  unfold result_of, trace_of. cbn [fst snd].
  pose proof (test_serial_port_run T _ _ (0, false, false) _ _ _ _ H)
    as (Hsub & Hpre & Hres).
  split; [exact Hsub|]. split; [exact Hpre|].
  split.
  - destruct res as [[s|]|].
    + right. destruct Hres as (pre & bs & baud & d & r & _ & _ & -> & -> & Hbs & Hq & Hl).
      exists pre, bs, baud, d, r. auto.
    + left. tauto.
    + contradiction.
  - subst found. split; vm_compute; reflexivity.
Qed.

Lemma discovery_order_and_early_exit_witness :
  exists rest,
    probe_order default_baud_rates =
    probes (trace_of (@test_serial_port silent "/dev/ttyUSB0" default_baud_rates tt))
    ++ rest.
Proof.
  destruct (discovery_order_and_early_exit silent "/dev/ttyUSB0"
              default_baud_rates tt 1 [] 0 true true O)
    as (_ & _ & Hprefix & _).
  apply Hprefix. reflexivity.
Defined.

(** C10. A configuration returned by discovery carries the port name it
    was given, a baud rate of the list it was given and one of the four
    handshake configurations. *)
Theorem discovery_returns_a_candidate (T : transport) (p : string)
    (bauds : list Z) (w : world T) (s : settings)
    (Hfound : result_of (test_serial_port p bauds w) = Val (Some s)) :
  port s = p /\
  In (baudrate s) bauds /\
  In (dtr s, rts s) [(false, false); (true, false); (false, true); (true, true)].
Proof.
  destruct (test_serial_port p bauds w) as [[t w'] res] eqn:H.
  unfold result_of in Hfound. cbn [snd] in Hfound. subst res.
  pose proof (test_serial_port_run T _ _ (0, false, false) _ _ _ _ H)
    as (_ & _ & pre & bs & baud & d & r & Hin & Hcfg & -> & _).
  cbn [port baudrate dtr rts]. auto.
Qed.

Lemma discovery_returns_a_candidate_witness :
  port {| port := "/dev/ttyUSB0"; baudrate := 38400; dtr := true; rts := false |}
  = "/dev/ttyUSB0"%string /\
  In 38400 default_baud_rates /\
  In (true, false) [(false, false); (true, false); (false, true); (true, true)].
Proof.
  apply (discovery_returns_a_candidate
           (sim_device (38400, true, false) [0xF0] never)
           "/dev/ttyUSB0" default_baud_rates power_on
           {| port := "/dev/ttyUSB0"; baudrate := 38400; dtr := true; rts := false |}).
  vm_compute. reflexivity.
Defined.

(** C5, as amended.  When a request raises while one baud rate is being
    tried, the exception leaves the whole [with] block of that baud
    rate: the raising request is the last one made at that baud rate
    (only the release of the port may follow it), so the handshake
    configurations not yet tried there are left out.  The exception is
    caught at that point and discovery goes on with the next baud rate
    of the list, from the state in which the fault left the transport.
    Discovery itself never raises. *)
Theorem discovery_fault_moves_to_next_baud (T : transport) (p : string)
    (baud : Z) (rest : list Z) (w : world T)
    (Hfault : faultless (trace_of (test_baud p baud w)) = false) :
  let t1 := trace_of (test_baud p baud w) in
  let w1 := snd (fst (test_baud p baud w)) in
  result_of (test_baud p baud w) = Exc /\
  (exists pre o,
     faultless pre = true /\
     (t1 = pre ++ [Call o None] \/ t1 = pre ++ [Call o None; Close])) /\
  test_serial_port p (baud :: rest) w =
    (t1 ++ trace_of (test_serial_port p rest w1),
     snd (fst (test_serial_port p rest w1)),
     result_of (test_serial_port p rest w1)) /\
  (forall (bauds : list Z) (w0 : world T),
     result_of (test_serial_port p bauds w0) <> Exc).
Proof.
  cbv zeta.
  destruct (test_baud p baud w) as [[t1 w1] r1] eqn:Hrun.
  unfold trace_of, result_of in *. cbn [fst snd] in *.
  pose proof (test_baud_run T p baud (0, false, false) _ _ _ _ Hrun)
    as (_ & _ & Hres).
  assert (Hexc : r1 = Exc).
  { destruct r1 as [[s|]|]; [| |reflexivity].
    - destruct Hres as (Hf & _). congruence.
    - destruct Hres as (_ & Hf & _). congruence. }
  subst r1. destruct Hres as (_ & _ & Hend).
  split; [reflexivity|]. split; [exact Hend|]. split.
  - cbn [test_serial_port]. unfold bind, catch at 1. rewrite Hrun.
    unfold ret at 1. cbv beta iota. rewrite app_nil_r.
    destruct (test_serial_port p rest w1) as [[t2 w2] r2]. reflexivity.
  - intros bauds w0.
    destruct (test_serial_port p bauds w0) as [[t w'] res] eqn:H.
    pose proof (test_serial_port_run T _ _ (0, false, false) _ _ _ _ H)
      as (_ & _ & Hres).
    cbn [snd]. intros ->. exact Hres.
Qed.

Lemma discovery_fault_moves_to_next_baud_witness :
  let D := sim_device (9600, true, false) [0xF0] (only 0) in
  result_of (@test_baud D "/dev/ttyUSB0" 9600 power_on) = Exc /\
  result_of (@test_serial_port D "/dev/ttyUSB0" [9600; 19200] power_on) = Val None.
Proof.
  cbv zeta.
  destruct (discovery_fault_moves_to_next_baud
              (sim_device (9600, true, false) [0xF0] (only 0))
              "/dev/ttyUSB0" 9600 [19200] power_on
              ltac:(vm_compute; reflexivity))
    as (Hexc & _ & Hnext & _).
  split; [exact Hexc|].
  rewrite Hnext. vm_compute. reflexivity.
Defined.

(** C5, as stated, fails.  The first write raises at (9600, false, false)
    on a device that would answer at (9600, true, false): discovery
    never probes that next candidate and returns [None], where a search
    confining the fault to the one candidate finds the device. *)
Lemma discovery_fault_skips_candidates :
  let T := sim_device (9600, true, false) [0xF0] (only 0) in
  let run := @test_serial_port T "/dev/ttyUSB0" default_baud_rates power_on in
  In (Call (OpWrite SYNC_PACKET) None) (firstn 7 (trace_of run)) /\
  In (9600, (true, false)) (candidates default_baud_rates) /\
  existsb (fun pr => line_eqb (fst pr) (9600, true, false)) (probes (trace_of run))
    = false /\
  result_of run = Val None /\
  result_of (@discovery_per_candidate T "/dev/ttyUSB0"
               (candidates default_baud_rates) power_on)
    = Val (Some {| port := "/dev/ttyUSB0"; baudrate := 9600;
                   dtr := true; rts := false |}).
Proof.
  cbv zeta. split; [|split; [|split; [|split]]].
  - vm_compute. do 6 right. left. reflexivity.
  - vm_compute. right. left. reflexivity.
  - vm_compute. reflexivity.
  - vm_compute. reflexivity.
  - vm_compute. reflexivity.
Qed.

(** ** Command sequencer *)

Section SequencerFacts.

Variable T : transport.

Ltac run_cmd H :=
  repeat match type of H with
         | context [create_ssp_packet ?c ?q ?d] =>
             let pkt := fresh "pkt" in
             let E := fresh "Epkt" in
             destruct (create_ssp_packet c q d) as [pkt|] eqn:E;
             cbv beta iota in H
         | context [io T ?w ?o] =>
             let w1 := fresh "w" in
             let bs := fresh "bs" in
             destruct (io T w o) as [w1 [bs|]]; cbv beta iota in H
         | context [nonempty ?bs] =>
             is_var bs; destruct bs; cbn [nonempty] in H; cbv beta iota in H
         | context [?c =? CMD_POLL] =>
             let E := fresh "Ecmd" in
             destruct (c =? CMD_POLL) eqn:E; cbv beta iota in H
         end;
  cbn [app] in H.

Lemma send_command_run (cmd s : Z) (w w' : world T) (t : list event) (s' : Z) :
  send_command cmd s w = (t, w', Val s') ->
  s' = advance s /\
  exists pkt a bs,
    create_ssp_packet cmd s [] = Some pkt /\
    ((t = exchange pkt a bs /\ nonempty bs && (cmd =? CMD_POLL) = false) \/
     (cmd = CMD_POLL /\
      exists p1 p2 p3 a1 a2 a3 r1 r2 r3,
        create_ssp_packet CMD_POLL (Z.lor 0x80 (Z.land (s + 1) 0x7F)) [] = Some p1 /\
        create_ssp_packet CMD_POLL (Z.lor 0x80 (Z.land (s + 2) 0x7F)) [] = Some p2 /\
        create_ssp_packet CMD_POLL (Z.lor 0x80 (Z.land (s + 3) 0x7F)) [] = Some p3 /\
        t = exchange pkt a bs ++ exchange p1 a1 r1 ++
            exchange p2 a2 r2 ++ exchange p3 a3 r3 /\
        nonempty bs = true)).
Proof.
  intro H.
  cbv beta iota delta [send_command bind call sleep raise_none ret for_each extra_poll] in H.
  replace (s + 0 + 1) with (s + 1) in H by lia.
  replace (s + 1 + 1) with (s + 2) in H by lia.
  replace (s + 2 + 1) with (s + 3) in H by lia.
  run_cmd H.
  all: try discriminate H.
  all: injection H as <- <- <-.
  all: split; [reflexivity|].
  all: do 3 eexists; split; [reflexivity|].
  all: first
    [ solve [left; split; reflexivity]
    | right; split; [now apply Z.eqb_eq|];
      do 9 eexists; repeat split; reflexivity ].
Qed.

Lemma run_commands_counter (cmds : list (Z * string)) :
  forall (s : Z) (w w' : world T) (t : list event) (s' : Z),
  run_commands cmds s w = (t, w', Val s') ->
  s' = Nat.iter (List.length cmds) advance s.
Proof.
  induction cmds as [|[cmd name] cmds IH]; intros s w w' t s' H.
  - injection H as <- <- <-. reflexivity.
  - cbn [run_commands] in H.
    apply bind_inv in H as [[_ Hexc] | (t1 & w1 & a & t2 & Hm & Hk & ->)];
      [discriminate|].
    apply send_command_run in Hm as [-> _].
    apply IH in Hk as ->.
    cbn [List.length]. now rewrite Nat.iter_succ_r.
Qed.

End SequencerFacts.

Section SessionFacts.

Variable T : transport.

Ltac run_closed H :=
  repeat match type of H with
         | context [create_ssp_packet ?c ?q ?d] =>
             let v := eval vm_compute in (create_ssp_packet c q d) in
             change (create_ssp_packet c q d) with v in H;
             cbv beta iota in H
         | context [io T ?w ?o] =>
             let w1 := fresh "w" in
             let bs := fresh "bs" in
             destruct (io T w o) as [w1 [bs|]]; cbv beta iota in H
         | context [nonempty ?bs] =>
             is_var bs; destruct bs; cbn [nonempty] in H; cbv beta iota in H
         | context [?c =? CMD_POLL] =>
             let v := eval vm_compute in (c =? CMD_POLL) in
             change (c =? CMD_POLL) with v in H;
             cbv beta iota in H
         end;
  cbn [app] in H.

(** Every way the four commands can go on a transport. *)
Lemma session_sequence_bytes (st : settings) (w w' : world T) (t : list event)
    (res : outcome Z) :
  session st w = (t, w', res) ->
  exists k : nat,
    sequence_bytes t = firstn k [0x80; 0x81; 0x82; 0x83; 0x84; 0x85; 0x86] /\
    (res <> Exc -> k = 4%nat \/ k = 7%nat).
Proof.
  intro H. destruct st as [p b d r].
  cbv beta iota delta [session with_serial run_commands commands send_command
                       bind call sleep raise_none ret for_each extra_poll
                       port baudrate dtr rts] in H.
  run_closed H.
  all: injection H as <- <- <-.
  all: first
    [ exists 0%nat; split; [reflexivity | intro Hc; now destruct Hc]
    | exists 1%nat; split; [reflexivity | intro Hc; now destruct Hc]
    | exists 2%nat; split; [reflexivity | intro Hc; now destruct Hc]
    | exists 3%nat; split; [reflexivity | intro Hc; now destruct Hc]
    | exists 4%nat; split; [reflexivity | intro Hc; auto]
    | exists 5%nat; split; [reflexivity | intro Hc; now destruct Hc]
    | exists 6%nat; split; [reflexivity | intro Hc; now destruct Hc]
    | exists 7%nat; split; [reflexivity | intro Hc; auto] ].
Qed.

(** A command run in which no request raised has sent the four commands,
    or the four and the three extra POLLs, and leaves the counter four
    advances from 0x80. *)
Lemma session_clean (st : settings) (w w' : world T) (t : list event)
    (res : outcome Z) :
  session st w = (t, w', res) ->
  faultless t = true ->
  res = Val 0x84 /\
  (sequence_bytes t = [0x80; 0x81; 0x82; 0x83] \/
   sequence_bytes t = [0x80; 0x81; 0x82; 0x83; 0x84; 0x85; 0x86]).
Proof.
  intro H. destruct st as [p b d r].
  cbv beta iota delta [session with_serial run_commands commands send_command
                       bind call sleep raise_none ret for_each extra_poll
                       port baudrate dtr rts] in H.
  run_closed H.
  all: injection H as <- <- <-.
  all: intro Hclean; try discriminate Hclean.
  all: split; [reflexivity|].
  all: first [left; reflexivity | right; reflexivity].
Qed.

End SessionFacts.

Section CounterFacts.

Lemma land_128_small (m : Z) : 0 <= m < 128 -> Z.land 0x80 m = 0.
Proof.
  intro Hm. apply Z.bits_inj'. intros n Hn.
  rewrite Z.land_spec, Z.bits_0. change 0x80 with (2 ^ 7).
  rewrite Z.pow2_bits_eqb by lia.
  destruct (Z.eqb_spec 7 n) as [<-|]; [|reflexivity].
  destruct (Z.eq_dec m 0) as [->|Hnz]; [reflexivity|].
  rewrite Z.bits_above_log2; [reflexivity | lia |].
  apply Z.log2_lt_pow2; lia.
Qed.

Lemma lor_128_small (m : Z) : 0 <= m < 128 -> Z.lor 0x80 m = 128 + m.
Proof.
  intro Hm. pose proof (land_128_small m Hm) as Hl.
  now rewrite <- Z.lxor_lor, <- Z.add_nocarry_lxor.
Qed.

Lemma advance_small (m : Z) :
  0 <= m < 128 -> advance (Z.lor 0x80 m) = Z.lor 0x80 ((m + 1) mod 128).
Proof.
  intro Hm. unfold advance. rewrite (lor_128_small m) by exact Hm.
  f_equal. change 0x7F with (Z.ones 7). rewrite Z.land_ones by lia.
  change (2 ^ 7) with 128.
  replace (128 + m + 1) with (m + 1 + 1 * 128) by lia.
  apply Z_mod_plus_full.
Qed.

Lemma iter_advance (n : nat) :
  Nat.iter n advance 0x80 = Z.lor 0x80 (Z.of_nat n mod 128).
Proof.
  induction n as [|n IH]; [reflexivity|].
  rewrite Nat.iter_succ, IH, advance_small
    by (apply Z.mod_pos_bound; lia).
  f_equal. rewrite Z.add_mod_idemp_l by lia. f_equal. lia.
Qed.

Lemma lor_128_high_bit (x : Z) : Z.testbit (Z.lor 0x80 x) 7 = true.
Proof. rewrite Z.lor_spec. reflexivity. Qed.

End CounterFacts.

(** ** Runs in which no request raises *)

Section CleanRuns.

Variable T : transport.

Lemma sequence_byte_ok (x : Z) : is_byte (Z.lor 0x80 (Z.land x 0x7F)) = true.
Proof.
  change 0x7F with (Z.ones 7). rewrite Z.land_ones by lia. change (2 ^ 7) with 128.
  pose proof (Z.mod_pos_bound x 128 ltac:(lia)) as Hm.
  rewrite lor_128_small by exact Hm. apply byte_range. lia.
Qed.

Lemma packet_exists (command sequence : Z) :
  is_byte command = true -> is_byte sequence = true ->
  exists pkt, create_ssp_packet command sequence [] = Some pkt.
Proof.
  intros Hc Hs. unfold create_ssp_packet, to_bytes.
  rewrite forallb_app.
  rewrite (packet_body_bytes command sequence [] Hc Hs eq_refl)
    by (cbn [List.length]; lia).
  cbn [forallb]. rewrite !land_255_byte. cbn [andb]. eauto.
Qed.

Ltac run_clean H :=
  repeat match type of H with
         | context [io T ?w ?o] =>
             let w1 := fresh "w" in
             let bs := fresh "bs" in
             destruct (io T w o) as [w1 [bs|]]; cbv beta iota in H
         | context [nonempty ?bs] =>
             is_var bs; destruct bs; cbn [nonempty] in H; cbv beta iota in H
         | context [?c =? CMD_POLL] =>
             let E := fresh "Ecmd" in
             destruct (c =? CMD_POLL) eqn:E; cbv beta iota in H
         end;
  cbn [app] in H.

(** A pass of the command loop in which no request raised returns the
    advanced counter, whatever its reads returned. *)
Lemma send_command_clean (cmd s : Z) (w w' : world T) (t : list event)
    (res : outcome Z) :
  is_byte cmd = true -> is_byte s = true ->
  send_command cmd s w = (t, w', res) ->
  faultless t = true ->
  res = Val (advance s).
Proof.
  intros Hc Hs H.
  destruct (packet_exists cmd s Hc Hs) as [pkt Hp].
  destruct (packet_exists CMD_POLL (Z.lor 0x80 (Z.land (s + 0 + 1) 0x7F))
              eq_refl (sequence_byte_ok _)) as [p1 Hp1].
  destruct (packet_exists CMD_POLL (Z.lor 0x80 (Z.land (s + 1 + 1) 0x7F))
              eq_refl (sequence_byte_ok _)) as [p2 Hp2].
  destruct (packet_exists CMD_POLL (Z.lor 0x80 (Z.land (s + 2 + 1) 0x7F))
              eq_refl (sequence_byte_ok _)) as [p3 Hp3].
  cbv beta iota delta [send_command bind call sleep raise_none ret for_each extra_poll] in H.
  rewrite Hp, Hp1, Hp2, Hp3 in H. cbv beta iota in H.
  clear Hp Hp1 Hp2 Hp3.
  run_clean H.
  all: injection H as <- <- <-.
  all: intro Hclean; first [discriminate Hclean | reflexivity].
Qed.

Lemma run_commands_clean (cmds : list (Z * string)) :
  forall (s : Z) (w w' : world T) (t : list event) (res : outcome Z),
  forallb (fun c => is_byte (fst c)) cmds = true -> is_byte s = true ->
  run_commands cmds s w = (t, w', res) ->
  faultless t = true ->
  res = Val (Nat.iter (List.length cmds) advance s).
Proof.
  induction cmds as [|[cmd name] cmds IH]; intros s w w' t res Hall Hs H Hclean.
  - injection H as <- <- <-. reflexivity.
  - cbn [forallb fst] in Hall. apply andb_true_iff in Hall as [Hc Hall].
    cbn [run_commands] in H.
    apply bind_inv in H as [[Hm ->] | (t1 & w1 & a & t2 & Hm & Hk & ->)].
    + pose proof (send_command_clean _ _ _ _ _ _ Hc Hs Hm Hclean) as Hx.
      discriminate Hx.
    + rewrite faultless_app in Hclean. apply andb_true_iff in Hclean as [Hf1 Hf2].
      pose proof (send_command_clean _ _ _ _ _ _ Hc Hs Hm Hf1) as Hx.
      injection Hx as ->.
      rewrite (IH _ _ _ _ _ Hall (sequence_byte_ok (s + 1)) Hk Hf2).
      cbn [List.length]. now rewrite Nat.iter_succ_r.
Qed.

End CleanRuns.

(** C6. The counter after [n] advances from 0x80 is [0x80 | (n mod 128)]
    and has its high bit set.  A pass of the command loop in which no
    request raised returns the counter advanced once, whatever its reads
    returned, a response or none; so a run of commands that started at
    0x80 and met no fault ends at [0x80 | (len mod 128)], and the command
    run of [main] ends at 0x84.  The sequence bytes that a command run
    puts on the wire start at 0x80 and go up by one from packet to
    packet on every transport. *)
Theorem sequence_counter_lifecycle (T : transport) (n : nat) :
  Nat.iter n advance 0x80 = Z.lor 0x80 (Z.of_nat n mod 128) /\
  Z.testbit (Nat.iter n advance 0x80) 7 = true /\
  (forall (cmd s : Z) (w w' : world T) (t : list event) (s' : Z),
     send_command cmd s w = (t, w', Val s') -> s' = advance s) /\
  (forall (cmds : list (Z * string)) (w w' : world T) (t : list event) (s' : Z),
     run_commands cmds 0x80 w = (t, w', Val s') ->
     s' = Z.lor 0x80 (Z.of_nat (List.length cmds) mod 128)) /\
  (forall (st : settings) (w : world T),
     exists k : nat,
       sequence_bytes (trace_of (session st w)) =
         firstn k [0x80; 0x81; 0x82; 0x83; 0x84; 0x85; 0x86] /\
       (result_of (session st w) <> Exc -> k = 4%nat \/ k = 7%nat)) /\
  (forall (cmd s : Z) (w : world T),
     is_byte cmd = true -> is_byte s = true ->
     faultless (trace_of (send_command cmd s w)) = true ->
     result_of (send_command cmd s w) = Val (advance s)) /\
  (forall (cmds : list (Z * string)) (w : world T),
     forallb (fun c => is_byte (fst c)) cmds = true ->
     faultless (trace_of (run_commands cmds 0x80 w)) = true ->
     result_of (run_commands cmds 0x80 w) =
       Val (Z.lor 0x80 (Z.of_nat (List.length cmds) mod 128))) /\
  (forall (st : settings) (w : world T),
     faultless (trace_of (session st w)) = true ->
     result_of (session st w) = Val 0x84 /\
     (sequence_bytes (trace_of (session st w)) = [0x80; 0x81; 0x82; 0x83] \/
      sequence_bytes (trace_of (session st w)) =
        [0x80; 0x81; 0x82; 0x83; 0x84; 0x85; 0x86])).
Proof.
  split; [apply iter_advance|].
  split; [rewrite iter_advance; apply lor_128_high_bit|].
  split; [intros cmd s w w' t s' H; now apply send_command_run in H|].
  split.
  { intros cmds w w' t s' H. apply run_commands_counter in H.
    now rewrite H, iter_advance. }
  split.
  { intros st w. destruct (session st w) as [[t w'] res] eqn:H.
    apply session_sequence_bytes in H. exact H. }
  split.
  { intros cmd s w Hc Hs Hclean.
    destruct (send_command cmd s w) as [[t w'] res] eqn:H.
    unfold trace_of, result_of in *. cbn [fst snd] in *.
    exact (send_command_clean T _ _ _ _ _ _ Hc Hs H Hclean). }
  split.
  { intros cmds w Hall Hclean.
    destruct (run_commands cmds 0x80 w) as [[t w'] res] eqn:H.
    unfold trace_of, result_of in *. cbn [fst snd] in *.
    rewrite (run_commands_clean T cmds 0x80 w w' t res Hall eq_refl H Hclean).
    now rewrite iter_advance. }
  intros st w Hclean.
  destruct (session st w) as [[t w'] res] eqn:H.
  unfold trace_of, result_of in *. cbn [fst snd] in *.
  exact (session_clean T _ _ _ _ _ H Hclean).
Qed.

Lemma sequence_counter_lifecycle_witness :
  result_of (@send_command silent CMD_SYNC 0x80 tt) = Val (advance 0x80) /\
  result_of (@send_command (first_read_only [0xF0]) CMD_SYNC 0x80 O)
    = Val (advance 0x80) /\
  result_of
    (@session silent {| port := "/dev/ttyUSB0"; baudrate := 9600;
                        dtr := false; rts := false |} tt) = Val 0x84.
Proof.
  destruct (sequence_counter_lifecycle silent 130)
    as (_ & _ & _ & _ & _ & Hpass & _ & Hsession).
  destruct (sequence_counter_lifecycle (first_read_only [0xF0]) 130)
    as (_ & _ & _ & _ & _ & Hpass' & _).
  split; [|split].
  - apply Hpass; vm_compute; reflexivity.
  - apply Hpass'; vm_compute; reflexivity.
  - apply Hsession. vm_compute. reflexivity.
Defined.



(** ** The run *)

Lemma test_serial_port_total (T : transport) (p : string) (bauds : list Z)
    (w : world T) :
  result_of (test_serial_port p bauds w) <> Exc.
Proof.
  destruct (test_serial_port p bauds w) as [[t w'] res] eqn:H.
  pose proof (test_serial_port_run T _ _ (0, false, false) _ _ _ _ H)
    as (_ & _ & Hres).
  unfold result_of. cbn [snd]. intros ->. exact Hres.
Qed.

(** C8, as amended.  [main] returns 0 exactly when a device with a
    non-empty path was found, discovery returned a configuration and the
    command sequence raised nothing; in every other case it returns the
    one failure status 1. *)
Theorem main_exit_status (T : transport) (ports : list port_info)
    (w : world T) :
  exists status : Z,
    result_of (main ports w) = Val status /\
    (status = 0 \/ status = 1) /\
    (status = 0 <->
     exists (p : string) (st : settings) (t1 : list event) (w1 : world T),
       identify_device ports = Some p /\ p <> ""%string /\
       test_serial_port p default_baud_rates w = (t1, w1, Val (Some st)) /\
       result_of (session st w1) <> Exc).
Proof.
  unfold main. destruct (identify_device ports) as [p|] eqn:Hid.
  - destruct (p =? "")%string eqn:Hp.
    + exists 1. split; [reflexivity|]. split; [now right|].
      split; [discriminate|].
      intros (p' & st & t1 & w1 & Hsome & Hne & _).
      injection Hsome as <-. apply String.eqb_eq in Hp. contradiction.
    + apply String.eqb_neq in Hp.
      pose proof (test_serial_port_total T p default_baud_rates w) as Htot.
      unfold bind.
      destruct (test_serial_port p default_baud_rates w)
        as [[t1 w1] [[st|]|]] eqn:Hd.
      * unfold catch, bind.
        destruct (session st w1) as [[t2 w2] [v|]] eqn:Hs.
        -- exists 0. split; [reflexivity|]. split; [now left|].
           split; [|reflexivity]. intros _.
           exists p, st, t1, w1. rewrite Hs.
           repeat split; auto. discriminate.
        -- exists 1. split; [reflexivity|]. split; [now right|].
           split; [discriminate|].
           intros (p' & st' & t1' & w1' & Hsome & _ & Hrun & Hok).
           injection Hsome as <-. rewrite Hd in Hrun. injection Hrun as <- <- <-.
           rewrite Hs in Hok. now destruct Hok.
      * exists 1. split; [reflexivity|]. split; [now right|].
        split; [discriminate|].
        intros (p' & st' & t1' & w1' & Hsome & _ & Hrun & _).
        injection Hsome as <-. rewrite Hd in Hrun. discriminate Hrun.
      * now destruct Htot.
  - exists 1. split; [reflexivity|]. split; [now right|].
    split; [discriminate|].
    intros (p' & st & t1 & w1 & Hsome & _). discriminate.
Qed.

Lemma main_exit_status_witness :
  exists status : Z,
    result_of
      (@main (sim_device (19200, false, false) [0xF0] never)
         [{| vid := Some VENDOR_ID; pid := Some PRODUCT_ID;
             device := "/dev/ttyUSB0" |}] power_on) = Val status /\
    (status = 0 \/ status = 1).
Proof.
  destruct (main_exit_status (sim_device (19200, false, false) [0xF0] never)
              [{| vid := Some VENDOR_ID; pid := Some PRODUCT_ID;
                  device := "/dev/ttyUSB0" |}] power_on)
    as (status & Hres & Hrange & _).
  exists status. split; [exact Hres | exact Hrange].
Defined.

(** C8, as stated, fails.  A run without a device, a run in which
    discovery finds no configuration and a run in which the second
    command of the sequence raises all end with status 1, so the three
    failure statuses are not distinct from each other. *)
Lemma failure_statuses_coincide :
  let target := {| vid := Some VENDOR_ID; pid := Some PRODUCT_ID;
                   device := "/dev/ttyUSB0" |} in
  let faulty := sim_device (9600, false, false) [0xF0] (only 2) in
  let no_device := result_of (@main silent [] tt) in
  let no_configuration := result_of (@main silent [target] tt) in
  let sequencing_fault := result_of (@main faulty [target] power_on) in
  identify_device [] = None /\
  result_of (@test_serial_port silent "/dev/ttyUSB0" default_baud_rates tt)
    = Val None /\
  (exists st t1 w1,
     @test_serial_port faulty "/dev/ttyUSB0" default_baud_rates power_on
       = (t1, w1, Val (Some st)) /\
     result_of (session st w1) = Exc) /\
  no_device = Val 1 /\ no_configuration = Val 1 /\ sequencing_fault = Val 1 /\
  ~ (no_device <> no_configuration /\
     no_configuration <> sequencing_fault /\
     no_device <> sequencing_fault).
Proof.
  cbv zeta.
  split; [reflexivity|].
  split; [vm_compute; reflexivity|].
  split.
  { do 3 eexists. split; [vm_compute; reflexivity | vm_compute; reflexivity]. }
  split; [vm_compute; reflexivity|].
  split; [vm_compute; reflexivity|].
  split; [vm_compute; reflexivity|].
  intros (Hne & _). apply Hne. vm_compute. reflexivity.
Qed.

(** * Further properties *)

(** ** Frame codec *)

Section CodecMore.

Lemma to_bytes_some (l pkt : list Z) :
  to_bytes l = Some pkt -> pkt = l /\ forallb is_byte l = true.
Proof.
  unfold to_bytes. destruct (forallb is_byte l); [|discriminate].
  intro H. injection H as <-. split; reflexivity.
Qed.

(** A shift of an even register halves it. *)
Lemma crc_shift_double (y : Z) : crc_shift (2 * y) = y.
Proof.
  unfold crc_shift. rewrite land_1_mod2.
  replace ((2 * y) mod 2) with 0
    by (symmetry; rewrite Z.mul_comm; apply Z_mod_mult).
  cbn [Z.eqb]. rewrite Z.shiftr_div_pow2 by lia. change (2 ^ 1) with 2.
  rewrite Z.mul_comm. apply Z_div_mult. lia.
Qed.

Lemma crc_shift_8_of_high (h : Z) : Nat.iter 8 crc_shift (256 * h) = h.
Proof.
  cbn [Nat.iter nat_rect].
  replace (256 * h) with (2 * (2 * (2 * (2 * (2 * (2 * (2 * (2 * h)))))))) by lia.
  now rewrite !crc_shift_double.
Qed.

(** Feeding a register its own two bytes, low byte first, clears it. *)
Lemma crc_update_own_bytes (c : Z) :
  is_word c ->
  crc_update (crc_update c (Z.land c 0xFF)) (Z.land (Z.shiftr c 8) 0xFF) = 0.
Proof.
  unfold is_word. intro Hc.
  assert (Hlow : Z.land c 0xFF = c mod 256).
  { change 0xFF with (Z.ones 8). now rewrite Z.land_ones by lia. }
  assert (Hhi : 0 <= c / 256 < 256)
    by (split; [apply Z.div_pos; lia | apply Z.div_lt_upper_bound; lia]).
  assert (Hhigh : Z.land (Z.shiftr c 8) 0xFF = c / 256).
  { change 0xFF with (Z.ones 8).
    rewrite Z.land_ones, Z.shiftr_div_pow2 by lia. change (2 ^ 8) with 256.
    now apply Z.mod_small. }
  rewrite Hlow, Hhigh.
  assert (Hfirst : crc_update c (c mod 256) = c / 256).
  { unfold crc_update.
    rewrite (xor_byte_low c (c mod 256)) by (apply Z.mod_pos_bound; lia).
    unfold reg_xor_low. rewrite Z.lxor_nilpotent, Z.add_0_r.
    apply crc_shift_8_of_high. }
  rewrite Hfirst. unfold crc_update. rewrite Z.lxor_nilpotent. reflexivity.
Qed.

Lemma create_ssp_packet_some (command sequence : Z) (data : list Z) :
  is_byte command = true -> is_byte sequence = true ->
  forallb is_byte data = true -> (List.length data <= 254)%nat ->
  let body := [0x7F; sequence; Z.of_nat (List.length data) + 1; command] ++ data in
  create_ssp_packet command sequence data =
  Some (body ++ [Z.land (calculate_crc body) 0xFF;
                 Z.land (Z.shiftr (calculate_crc body) 8) 0xFF]).
Proof.
  intros Hc Hs Hd Hl body. unfold create_ssp_packet, to_bytes. fold body.
  rewrite forallb_app. unfold body at 1.
  rewrite (packet_body_bytes command sequence data Hc Hs Hd Hl).
  cbn [forallb]. now rewrite !land_255_byte.
Qed.

End CodecMore.

(** X1. [create_ssp_packet] returns a packet exactly when the command,
    the sequence value and every data element are bytes and there are at
    most 254 data elements; the packet then has six bytes more than the
    data. *)
Theorem create_ssp_packet_domain (command sequence : Z) (data : list Z) :
  ((exists pkt, create_ssp_packet command sequence data = Some pkt) <->
   (is_byte command = true /\ is_byte sequence = true /\
    forallb is_byte data = true /\ (List.length data <= 254)%nat)) /\
  (forall pkt, create_ssp_packet command sequence data = Some pkt ->
     List.length pkt = (List.length data + 6)%nat).
Proof.
  split; [split|].
  - intros [pkt H]. unfold create_ssp_packet in H.
    apply to_bytes_some in H as [_ H].
    rewrite forallb_app in H. apply andb_true_iff in H as [H _].
    rewrite forallb_app in H. apply andb_true_iff in H as [H Hdata].
    cbn [forallb] in H.
    repeat (apply andb_true_iff in H as [? H]).
    match goal with
    | Hl : is_byte (Z.of_nat _ + 1) = true |- _ => apply byte_range in Hl
    end.
    repeat split; try assumption. lia.
  - intros (Hc & Hs & Hd & Hl).
    eexists. now apply create_ssp_packet_some.
  - intros pkt H. unfold create_ssp_packet in H.
    apply to_bytes_some in H as [-> _].
    rewrite !length_app. cbn [List.length]. lia.
Qed.

(** X2. On bytes the checksum fits sixteen bits, so its two trailer
    bytes lose nothing. *)
Theorem calculate_crc_range (data : list Z)
    (Hbytes : forallb is_byte data = true) :
  0 <= calculate_crc data < 65536.
Proof. exact (calculate_crc_word data Hbytes). Qed.

Lemma calculate_crc_range_witness :
  0 <= calculate_crc [0x7F; 0x80; 0x01; 0x07] < 65536.
Proof. apply (calculate_crc_range [0x7F; 0x80; 0x01; 0x07]). reflexivity. Defined.

(** X3. The checksum of a whole packet, trailer included, is 0: a
    receiver can check a packet of [create_ssp_packet] by running
    [calculate_crc] over all of it. *)
Theorem packet_checksum_residue (command sequence : Z) (data pkt : list Z)
    (Hpkt : create_ssp_packet command sequence data = Some pkt) :
  calculate_crc pkt = 0.
Proof.
  unfold create_ssp_packet in Hpkt.
  apply to_bytes_some in Hpkt as [-> Hall].
  rewrite forallb_app in Hall. apply andb_true_iff in Hall as [Hbody _].
  unfold calculate_crc at 1. rewrite fold_left_app. cbn [fold_left].
  fold (calculate_crc ([0x7F; sequence; Z.of_nat (List.length data) + 1; command] ++ data)).
  apply crc_update_own_bytes, calculate_crc_word, Hbody.
Qed.

Lemma packet_checksum_residue_witness :
  calculate_crc [0x7F; 0x80; 0x01; 0x11; 0xA1; 0xFF] = 0.
Proof.
  apply (packet_checksum_residue CMD_SYNC 0x80 [] [0x7F; 0x80; 0x01; 0x11; 0xA1; 0xFF]).
  vm_compute. reflexivity.
Defined.

Section CrcInjective.

Lemma lxor_cancel_r (a b c : Z) : Z.lxor a c = Z.lxor b c -> a = b.
Proof.
  intro H. apply (f_equal (fun x => Z.lxor x c)) in H.
  now rewrite !Z.lxor_assoc, !Z.lxor_nilpotent, !Z.lxor_0_r in H.
Qed.

Lemma lxor_cancel_l (a b c : Z) : Z.lxor c a = Z.lxor c b -> a = b.
Proof. rewrite !(Z.lxor_comm c). apply lxor_cancel_r. Qed.

Lemma lxor_below (n a b : Z) :
  0 < n -> 0 <= a < 2 ^ n -> 0 <= b < 2 ^ n -> 0 <= Z.lxor a b < 2 ^ n.
Proof.
  intros Hn Ha Hb.
  assert (Hnn : 0 <= Z.lxor a b) by (apply Z.lxor_nonneg; lia).
  split; [exact Hnn|].
  destruct (Z.eq_dec (Z.lxor a b) 0) as [->|Hnz]; [apply Z.pow_pos_nonneg; lia|].
  apply Z.log2_lt_pow2; [lia|].
  pose proof (Z.log2_lxor a b ltac:(lia) ltac:(lia)) as Hl.
  assert (Z.log2 a < n).
  { destruct (Z.eq_dec a 0) as [->|]; [simpl; lia|]. apply Z.log2_lt_pow2; lia. }
  assert (Z.log2 b < n).
  { destruct (Z.eq_dec b 0) as [->|]; [simpl; lia|]. apply Z.log2_lt_pow2; lia. }
  lia.
Qed.

Lemma land_top_bit (y : Z) : 0 <= y < 32768 -> Z.land y 32768 = 0.
Proof.
  intro Hy. apply Z.bits_inj'. intros n Hn.
  rewrite Z.land_spec, Z.bits_0. change 32768 with (2 ^ 15).
  rewrite Z.pow2_bits_eqb by lia.
  destruct (Z.eqb_spec 15 n) as [<-|]; [|apply andb_false_r].
  destruct (Z.eq_dec y 0) as [->|Hnz]; [reflexivity|].
  rewrite Z.bits_above_log2; [reflexivity | lia |].
  apply Z.log2_lt_pow2; lia.
Qed.

(** The XOR with 0x8408 sets the top bit of a shifted register. *)
Lemma lxor_poly_high (q : Z) :
  0 <= q < 32768 -> 32768 <= Z.lxor q 0x8408 < 65536.
Proof.
  intro Hq.
  change 0x8408 with (Z.lxor 0x0408 32768). rewrite <- Z.lxor_assoc.
  assert (Hlow : 0 <= Z.lxor q 0x0408 < 32768).
  { change 32768 with (2 ^ 15). apply lxor_below; change (2 ^ 15) with 32768; lia. }
  rewrite <- Z.add_nocarry_lxor by (now apply land_top_bit). lia.
Qed.

Lemma crc_shift_cases (x : Z) :
  is_word x ->
  (x = 2 * (x / 2) /\ crc_shift x = x / 2) \/
  (x = 2 * (x / 2) + 1 /\ crc_shift x = Z.lxor (x / 2) 0x8408).
Proof.
  intros _. unfold crc_shift. rewrite land_1_mod2, Z.shiftr_div_pow2 by lia.
  change (2 ^ 1) with 2.
  pose proof (Z.div_mod x 2 ltac:(lia)) as Hdm.
  pose proof (Z.mod_pos_bound x 2 ltac:(lia)) as Hm.
  destruct (Z.eqb_spec (x mod 2) 0) as [H0|H1]; [left | right]; split;
    try reflexivity; lia.
Qed.

Lemma crc_shift_injective (x y : Z) :
  is_word x -> is_word y -> crc_shift x = crc_shift y -> x = y.
Proof.
  intros Hx Hy H.
  assert (Hqx : 0 <= x / 2 < 32768)
    by (unfold is_word in Hx; split;
        [apply Z.div_pos; lia | apply Z.div_lt_upper_bound; lia]).
  assert (Hqy : 0 <= y / 2 < 32768)
    by (unfold is_word in Hy; split;
        [apply Z.div_pos; lia | apply Z.div_lt_upper_bound; lia]).
  pose proof (lxor_poly_high _ Hqx) as Hhx.
  pose proof (lxor_poly_high _ Hqy) as Hhy.
  destruct (crc_shift_cases x Hx) as [[Ex Sx] | [Ex Sx]],
           (crc_shift_cases y Hy) as [[Ey Sy] | [Ey Sy]];
    rewrite Sx, Sy in H.
  - lia.
  - lia.
  - lia.
  - apply lxor_cancel_r in H. lia.
Qed.

Lemma iter_crc_shift_word (n : nat) (x : Z) :
  is_word x -> is_word (Nat.iter n crc_shift x).
Proof.
  intro Hx. induction n as [|n IH]; [exact Hx|].
  rewrite Nat.iter_succ. now apply crc_shift_word.
Qed.

Lemma iter_crc_shift_injective (n : nat) (x y : Z) :
  is_word x -> is_word y ->
  Nat.iter n crc_shift x = Nat.iter n crc_shift y -> x = y.
Proof.
  intros Hx Hy. induction n as [|n IH]; [trivial|].
  rewrite !Nat.iter_succ. intro H.
  apply IH, crc_shift_injective; auto using iter_crc_shift_word.
Qed.

Lemma byte_is_word (b : Z) : 0 <= b < 256 -> is_word b.
Proof. unfold is_word. lia. Qed.

Lemma crc_update_injective_reg (c c' b : Z) :
  is_word c -> is_word c' -> 0 <= b < 256 ->
  crc_update c b = crc_update c' b -> c = c'.
Proof.
  intros Hc Hc' Hb H. unfold crc_update in H.
  apply iter_crc_shift_injective in H;
    [ now apply lxor_cancel_r in H
    | apply lxor_word; auto using byte_is_word
    | apply lxor_word; auto using byte_is_word ].
Qed.

Lemma crc_update_injective_byte (c b b' : Z) :
  is_word c -> 0 <= b < 256 -> 0 <= b' < 256 ->
  crc_update c b = crc_update c b' -> b = b'.
Proof.
  intros Hc Hb Hb' H. unfold crc_update in H.
  apply iter_crc_shift_injective in H;
    [ now apply lxor_cancel_l in H
    | apply lxor_word; auto using byte_is_word
    | apply lxor_word; auto using byte_is_word ].
Qed.

Lemma fold_crc_injective (post : list Z) :
  forallb is_byte post = true ->
  forall c c', is_word c -> is_word c' ->
  fold_left crc_update post c = fold_left crc_update post c' -> c = c'.
Proof.
  induction post as [|b post IH]; intros Hall c c' Hc Hc' H; [exact H|].
  cbn [forallb] in Hall. apply andb_true_iff in Hall as [Hb Hpost].
  apply byte_range in Hb. cbn [fold_left] in H.
  apply IH in H; auto using crc_update_word.
  now apply crc_update_injective_reg in H.
Qed.

End CrcInjective.

(** X4. Two byte sequences that differ in exactly one byte have
    different checksums: a corruption confined to one byte, whatever its
    position, never goes unnoticed. *)
Theorem single_byte_error_detected (pre post : list Z) (b b' : Z)
    (Hpre : forallb is_byte pre = true) (Hpost : forallb is_byte post = true)
    (Hb : is_byte b = true) (Hb' : is_byte b' = true) (Hdiff : b <> b') :
  calculate_crc (pre ++ b :: post) <> calculate_crc (pre ++ b' :: post).
Proof.
  unfold calculate_crc. rewrite !fold_left_app. cbn [fold_left].
  fold (calculate_crc pre). intro H.
  apply byte_range in Hb, Hb'.
  pose proof (calculate_crc_word pre Hpre) as Hc.
  apply fold_crc_injective in H; auto using crc_update_word.
  apply crc_update_injective_byte in H; auto.
Qed.

Lemma single_byte_error_detected_witness :
  calculate_crc ([0x7F; 0x80] ++ 0x01 :: [0x11]) <>
  calculate_crc ([0x7F; 0x80] ++ 0x03 :: [0x11]).
Proof.
  apply (single_byte_error_detected [0x7F; 0x80] [0x11] 0x01 0x03);
    try reflexivity.
  discriminate.
Defined.

(** ** Properties kept by every step of a run *)

Section TraceInvariant.

Variable T : transport.
Variable P : list event -> Prop.
Hypothesis P_nil : P [].
Hypothesis P_app : forall t1 t2, P t1 -> P t2 -> P (t1 ++ t2).

Lemma satisfies_ret {A : Type} (Q : A -> Prop) (a : A) :
  Q a -> satisfies P Q (@ret T A a).
Proof. intros Ha w. split; [exact P_nil | exact Ha]. Qed.

Lemma satisfies_bind {A B : Type} (Qa : A -> Prop) (Qb : B -> Prop)
    (m : M T A) (k : A -> M T B) :
  satisfies P Qa m -> (forall a, Qa a -> satisfies P Qb (k a)) ->
  satisfies P Qb (bind m k).
Proof.
  intros Hm Hk w. specialize (Hm w). unfold bind, trace_of, result_of in *.
  destruct (m w) as [[t1 w1] [a|]]; cbn [fst snd] in *.
  - destruct Hm as [Ht Ha]. specialize (Hk a Ha w1).
    unfold trace_of, result_of in Hk.
    destruct (k a w1) as [[t2 w2] r]. cbn [fst snd] in *.
    destruct Hk as [Ht2 Hr]. split; [now apply P_app | exact Hr].
  - tauto.
Qed.

Lemma satisfies_call (o : op) :
  (forall a, P [Call o a]) -> satisfies P (fun _ => True) (@call T o).
Proof.
  intros Ho w. unfold call, trace_of, result_of.
  destruct (io T w o) as [w1 [bs|]]; cbn [fst snd]; split; auto.
Qed.

Lemma satisfies_sleep (ms : Z) :
  P [Sleep ms] -> satisfies P (fun _ => True) (sleep T ms).
Proof. intros Hs w. split; [exact Hs | exact I]. Qed.

Lemma satisfies_raise_none {A : Type} (o : option A) :
  satisfies P (fun a => o = Some a) (raise_none T o).
Proof.
  intro w. unfold raise_none, trace_of, result_of.
  destruct o; cbn [fst snd]; split; auto.
Qed.

Lemma satisfies_catch {A : Type} (Q : A -> Prop) (m handler : M T A) :
  satisfies P Q m -> satisfies P Q handler -> satisfies P Q (catch m handler).
Proof.
  intros Hm Hh w. specialize (Hm w). unfold catch, trace_of, result_of in *.
  destruct (m w) as [[t1 w1] [a|]]; cbn [fst snd] in *; [exact Hm|].
  specialize (Hh w1). unfold trace_of, result_of in Hh.
  destruct (handler w1) as [[t2 w2] r]. cbn [fst snd] in *.
  destruct Hm as [Ht1 _], Hh as [Ht2 Hr]. split; [now apply P_app | exact Hr].
Qed.

Lemma satisfies_weaken {A : Type} (Q Q' : A -> Prop) (m : M T A) :
  satisfies P Q m -> (forall a, Q a -> Q' a) -> satisfies P Q' m.
Proof.
  intros Hm HQ w. specialize (Hm w). destruct Hm as [Ht Hr].
  split; [exact Ht|]. destruct (result_of (m w)); auto.
Qed.

Lemma satisfies_with_serial {A : Type} (Q : A -> Prop) (p : string) (baud : Z)
    (body : M T A) :
  (forall a, P [Call (OpOpen p baud) a]) -> P [Close] ->
  satisfies P Q body -> satisfies P Q (with_serial p baud body).
Proof.
  intros Hopen Hclose Hbody w. unfold with_serial, trace_of, result_of.
  destruct (io T w (OpOpen p baud)) as [w1 [bs|]]; cbn [fst snd].
  - specialize (Hbody w1). unfold trace_of, result_of in Hbody.
    destruct (body w1) as [[t w2] r]. cbn [fst snd] in *.
    destruct Hbody as [Ht Hr]. split; [|exact Hr].
    change (Call (OpOpen p baud) (Some bs) :: t ++ [Close])
      with ([Call (OpOpen p baud) (Some bs)] ++ t ++ [Close]).
    auto.
  - split; auto.
Qed.

End TraceInvariant.

Lemma checksum_with_trailer (body : list Z) :
  forallb is_byte body = true ->
  calculate_crc
    (body ++ [Z.land (calculate_crc body) 0xFF;
              Z.land (Z.shiftr (calculate_crc body) 8) 0xFF]) = 0.
Proof.
  intro Hbody. pose proof (calculate_crc_word body Hbody) as Hw.
  unfold calculate_crc at 1. rewrite fold_left_app. cbn [fold_left].
  change (fold_left crc_update body 0xFFFF) with (calculate_crc body).
  generalize dependent (calculate_crc body). intros c Hc.
  now apply crc_update_own_bytes.
Qed.

Lemma frame_of_packet (command sequence : Z) (pkt : list Z) :
  create_ssp_packet command sequence [] = Some pkt -> is_frame pkt = true.
Proof.
  unfold create_ssp_packet.
  change ([0x7F; sequence; Z.of_nat (List.length (@nil Z)) + 1; command] ++ [])
    with [0x7F; sequence; 1; command].
  set (body := [0x7F; sequence; 1; command]).
  intro H. apply to_bytes_some in H as [-> Hall].
  assert (Hbody : forallb is_byte body = true).
  { rewrite forallb_app in Hall. now apply andb_true_iff in Hall as [Hbody _]. }
  unfold is_frame.
  rewrite Hall, (checksum_with_trailer body Hbody), andb_true_r.
  generalize (calculate_crc body). intro c. reflexivity.
Qed.

(** What the client does between opening and releasing a port. *)
Section BodyEvents.

Variable T : transport.
Variable E : event -> bool.

Hypothesis E_call :
  forall (o : op) (a : option (list Z)),
    (forall p b, o <> OpOpen p b) ->
    (forall pkt, o = OpWrite pkt -> is_frame pkt = true) ->
    (forall n, o = OpRead n -> n = 64) ->
    E (Call o a) = true.
Hypothesis E_sleep : E (Sleep 500) = true.

Local Abbreviation P := (Forall (fun e => E e = true)).

Let b_app : forall t1 t2 : list event, P t1 -> P t2 -> P (t1 ++ t2).
Proof. intros t1 t2 H1 H2. apply Forall_app. split; assumption. Qed.

Ltac one_call :=
  apply satisfies_call; intro; constructor; [|constructor];
  apply E_call;
  [ let Heq := fresh in intros ? ? Heq; discriminate Heq
  | let Heq := fresh in
    intros ? Heq;
    first
      [ discriminate Heq
      | injection Heq as <-;
        repeat match goal with
               | H : (fun _ => _) _ |- _ => cbv beta in H
               end;
        match goal with
        | H : create_ssp_packet _ _ [] = Some ?k |- is_frame ?k = true =>
            exact (frame_of_packet _ _ _ H)
        end ]
  | let Heq := fresh in
    intros ? Heq;
    first [discriminate Heq | injection Heq as <-; reflexivity] ].

Ltac body_step :=
  lazymatch goal with
  | |- satisfies _ _ (bind _ _) =>
      eapply (satisfies_bind T P b_app);
      [|let H := fresh "Hpost" in intros ? H; cbv beta in H]
  | |- satisfies _ _ (call _) => one_call
  | |- satisfies _ _ (sleep _ _) =>
      apply satisfies_sleep; constructor; [exact E_sleep | constructor]
  | |- satisfies _ _ (raise_none _ _) =>
      apply (satisfies_raise_none T P (Forall_nil _))
  | |- satisfies _ _ (if nonempty ?bs then _ else _) => destruct (nonempty bs)
  | |- satisfies _ _ (if ?c =? CMD_POLL then _ else _) => destruct (c =? CMD_POLL)
  end.

Lemma probe_body (p : string) (baud : Z) (cfg : bool * bool) :
  satisfies P (settings_of p baud) (@probe T p baud cfg).
Proof.
  destruct cfg as [d r]. unfold probe.
  repeat body_step.
  all: apply (satisfies_ret T P (Forall_nil _)).
  all: intros s Hs; first [discriminate Hs | injection Hs as <-; split; reflexivity].
Qed.

Lemma probe_all_body (p : string) (baud : Z) (cfgs : list (bool * bool)) :
  satisfies P (settings_of p baud) (@probe_all T p baud cfgs).
Proof.
  induction cfgs as [|cfg cfgs IH]; cbn [probe_all].
  - apply (satisfies_ret T P (Forall_nil _)). intros s Hs. discriminate Hs.
  - eapply (satisfies_bind T P b_app); [apply probe_body|].
    intros [s|] Hs; [|exact IH].
    apply (satisfies_ret T P (Forall_nil _)). exact Hs.
Qed.

Lemma extra_poll_body (s i : Z) :
  satisfies P (fun _ => True) (@extra_poll T s i).
Proof.
  unfold extra_poll. repeat body_step.
  now apply (satisfies_ret T P (Forall_nil _)).
Qed.

Lemma send_command_body (cmd s : Z) :
  satisfies P (fun _ => True) (@send_command T cmd s).
Proof.
  unfold send_command. repeat body_step.
  all: cbn [for_each]; repeat body_step.
  all: try apply extra_poll_body.
  all: apply (satisfies_ret T P (Forall_nil _) (fun _ => True)); exact I.
Qed.

Lemma run_commands_body (cmds : list (Z * string)) :
  forall s, satisfies P (fun _ => True) (@run_commands T cmds s).
Proof.
  induction cmds as [|[cmd name] cmds IH]; intro s; cbn [run_commands].
  - now apply (satisfies_ret T P (Forall_nil _)).
  - eapply (satisfies_bind T P b_app); [apply send_command_body|].
    intros a _. apply IH.
Qed.

Lemma session_body (d r : bool) :
  satisfies P (fun _ => True)
    (bind (@call T (OpSetDtr d))
       (fun _ => bind (call (OpSetRts r))
          (fun _ => bind (call OpResetInput)
             (fun _ => bind (call OpResetOutput)
                (fun _ => run_commands commands 0x80))))).
Proof. repeat body_step. apply run_commands_body. Qed.

End BodyEvents.

(** ** The port is opened and released in brackets *)

Section Brackets.

Variable T : transport.

Local Abbreviation closed := (fun t : list event => port_after false t = Some false).
Local Abbreviation inside := (Forall (fun e => is_inside e = true)).

Lemma port_after_app (t1 t2 : list event) (b : bool) :
  port_after b (t1 ++ t2) =
  match port_after b t1 with
  | Some b' => port_after b' t2
  | None => None
  end.
Proof.
  revert b. induction t1 as [|e t1 IH]; intro b; [reflexivity|].
  destruct e as [[] [a|]| |], b; cbn [app port_after]; auto.
Qed.

Lemma closed_app (t1 t2 : list event) : closed t1 -> closed t2 -> closed (t1 ++ t2).
Proof. intros H1 H2. cbv beta in *. now rewrite port_after_app, H1. Qed.

Lemma inside_keeps_open (t : list event) : inside t -> port_after true t = Some true.
Proof.
  induction 1 as [|e t He _ IH]; [reflexivity|].
  destruct e as [[] [a|]| |]; cbn [port_after]; try exact IH; discriminate He.
Qed.

Lemma inside_no_opens (t : list event) : inside t -> opens t = [].
Proof.
  induction 1 as [|e t He _ IH]; [reflexivity|].
  destruct e as [[] a| |]; cbn [opens flat_map app] in *; try exact IH;
    discriminate He.
Qed.

Lemma is_inside_call (o : op) (a : option (list Z)) :
  (forall p b, o <> OpOpen p b) ->
  (forall pkt, o = OpWrite pkt -> is_frame pkt = true) ->
  (forall n, o = OpRead n -> n = 64) ->
  is_inside (Call o a) = true.
Proof. intros Ho _ _. destruct o; try reflexivity. now destruct (Ho port0 baudrate0). Qed.

Lemma closed_with_serial {A : Type} (Q : A -> Prop) (p : string) (baud : Z)
    (body : M T A) :
  satisfies inside Q body -> satisfies closed Q (with_serial p baud body).
Proof.
  intros Hbody w. unfold with_serial, trace_of, result_of.
  destruct (io T w (OpOpen p baud)) as [w1 [bs|]]; cbn [fst snd].
  - specialize (Hbody w1). unfold trace_of, result_of in Hbody.
    destruct (body w1) as [[t w2] r]. cbn [fst snd] in *.
    destruct Hbody as [Ht Hr]. split; [|exact Hr].
    cbv beta. cbn [port_after]. now rewrite port_after_app, (inside_keeps_open t Ht).
  - split; [reflexivity | exact I].
Qed.

Lemma test_serial_port_closed (p : string) (bauds : list Z) :
  satisfies closed (fun _ => True) (@test_serial_port T p bauds).
Proof.
  induction bauds as [|baud rest IH]; cbn [test_serial_port].
  - now apply (satisfies_ret T closed eq_refl).
  - eapply (satisfies_bind T closed closed_app).
    + apply (satisfies_catch T closed closed_app).
      * unfold test_baud. apply closed_with_serial.
        apply (probe_all_body T is_inside is_inside_call eq_refl p baud).
      * apply (satisfies_ret T closed eq_refl (settings_of p baud)).
        intros s Hs. discriminate Hs.
    + intros [s|] _; [now apply (satisfies_ret T closed eq_refl) | exact IH].
Qed.

Lemma session_closed (st : settings) :
  satisfies closed (fun _ => True) (@session T st).
Proof.
  unfold session. apply closed_with_serial.
  apply (session_body T is_inside is_inside_call eq_refl).
Qed.

Lemma main_closed (ports : list port_info) :
  satisfies closed (fun _ => True) (@main T ports).
Proof.
  unfold main. destruct (identify_device ports) as [p|];
    [|now apply (satisfies_ret T closed eq_refl)].
  destruct (p =? "")%string; [now apply (satisfies_ret T closed eq_refl)|].
  eapply (satisfies_bind T closed closed_app);
    [apply test_serial_port_closed|].
  intros [st|] _; [|now apply (satisfies_ret T closed eq_refl)].
  eapply (satisfies_bind T closed closed_app).
  - apply (satisfies_catch T closed closed_app).
    + eapply (satisfies_bind T closed closed_app); [apply session_closed|].
      intros a _. apply (satisfies_ret T closed eq_refl (fun _ => True)). exact I.
    + apply (satisfies_ret T closed eq_refl (fun _ => True)). exact I.
  - intros [|] _; now apply (satisfies_ret T closed eq_refl).
Qed.

End Brackets.

(** X5. On every transport, in discovery and in the whole run alike, the
    port is never opened while it is open, every request is made on an
    open port, every port opened is released before the next is opened,
    and no port is left open at the end, whether a configuration is
    accepted, the candidates run out or a request raises. *)
Theorem port_use_is_bracketed (T : transport) (p : string) (bauds : list Z)
    (ports : list port_info) (w : world T) :
  port_after false (trace_of (test_serial_port p bauds w)) = Some false /\
  port_after false (trace_of (main ports w)) = Some false.
Proof.
  split.
  - apply (test_serial_port_closed T p bauds w).
  - apply (main_closed T ports w).
Qed.

(** ** What a run asks of the transport *)

Section Expected.

Variable T : transport.
Variable p : string.

Local Abbreviation expected := (Forall (fun e => is_expected p e = true)).

Lemma expected_app (t1 t2 : list event) :
  expected t1 -> expected t2 -> expected (t1 ++ t2).
Proof. intros H1 H2. apply Forall_app. split; assumption. Qed.

Lemma is_expected_call (o : op) (a : option (list Z)) :
  (forall q b, o <> OpOpen q b) ->
  (forall pkt, o = OpWrite pkt -> is_frame pkt = true) ->
  (forall n, o = OpRead n -> n = 64) ->
  is_expected p (Call o a) = true.
Proof.
  intros Ho Hw Hr. destruct o; try reflexivity.
  - now destruct (Ho port0 baudrate0).
  - cbn [is_expected]. now apply Hw.
  - cbn [is_expected]. now rewrite (Hr size eq_refl).
Qed.

Lemma expected_open (baud : Z) (a : option (list Z)) :
  existsb (Z.eqb baud) default_baud_rates = true ->
  expected [Call (OpOpen p baud) a].
Proof.
  intro Hb. constructor; [|constructor].
  cbn [is_expected]. now rewrite String.eqb_refl, Hb.
Qed.

Lemma expected_close : expected [Close].
Proof. constructor; [reflexivity | constructor]. Qed.

Lemma test_serial_port_expected (bauds : list Z) :
  (forall b, In b bauds -> existsb (Z.eqb b) default_baud_rates = true) ->
  satisfies expected
    (fun found => forall s, found = Some s ->
       port s = p /\ existsb (Z.eqb (baudrate s)) default_baud_rates = true)
    (@test_serial_port T p bauds).
Proof.
  induction bauds as [|baud rest IH]; intro Hin; cbn [test_serial_port].
  - apply (satisfies_ret T expected (Forall_nil _)). intros s Hs. discriminate Hs.
  - assert (Hb : existsb (Z.eqb baud) default_baud_rates = true)
      by (apply Hin; now left).
    eapply (satisfies_bind T expected expected_app).
    + apply (satisfies_catch T expected expected_app).
      * unfold test_baud.
        apply (satisfies_with_serial T expected expected_app);
          [intro a; now apply expected_open | exact expected_close |].
        apply (probe_all_body T (is_expected p) is_expected_call eq_refl p baud).
      * apply (satisfies_ret T expected (Forall_nil _)). intros s Hs. discriminate Hs.
    + intros [s|] Hs.
      * apply (satisfies_ret T expected (Forall_nil _)).
        intros s' Hs'. injection Hs' as <-.
        destruct (Hs s eq_refl) as [Hp Hbaud]. split; [exact Hp|].
        now rewrite Hbaud.
      * apply IH. intros b Hb'. apply Hin. now right.
Qed.

Lemma session_expected (st : settings) :
  port st = p -> existsb (Z.eqb (baudrate st)) default_baud_rates = true ->
  satisfies expected (fun _ => True) (@session T st).
Proof.
  intros Hp Hb. unfold session. rewrite Hp.
  apply (satisfies_with_serial T expected expected_app);
    [intro a; now apply expected_open | exact expected_close |].
  apply (session_body T (is_expected p) is_expected_call eq_refl).
Qed.

Lemma main_expected (ports : list port_info) :
  identify_device ports = Some p ->
  satisfies expected (fun _ => True) (@main T ports).
Proof.
  intro Hid. unfold main. rewrite Hid.
  destruct (p =? "")%string;
    [now apply (satisfies_ret T expected (Forall_nil _))|].
  eapply (satisfies_bind T expected expected_app).
  - apply test_serial_port_expected. intros b Hb.
    apply existsb_exists. exists b. split; [exact Hb | apply Z.eqb_refl].
  - intros [st|] Hst; [|now apply (satisfies_ret T expected (Forall_nil _))].
    destruct (Hst st eq_refl) as [Hp Hb].
    eapply (satisfies_bind T expected expected_app).
    + apply (satisfies_catch T expected expected_app).
      * eapply (satisfies_bind T expected expected_app);
          [now apply session_expected|].
        intros a _.
        apply (satisfies_ret T expected (Forall_nil _) (fun _ => True)). exact I.
      * apply (satisfies_ret T expected (Forall_nil _) (fun _ => True)). exact I.
    + intros [|] _; now apply (satisfies_ret T expected (Forall_nil _)).
Qed.

End Expected.

(** X6. When no listed port has the target identifiers the run makes no
    request at all and returns 1.  Otherwise everything it asks of the
    transport stays within this: it opens only the device path found,
    at one of the four default baud rates; every read asks for 64 bytes;
    every pause lasts 500 ms; every packet written is a six-byte frame
    that starts with 0x7F, has length byte 1 and a checksum that
    verifies. *)
Theorem main_requests (T : transport) (ports : list port_info) (w : world T) :
  match identify_device ports with
  | Some p => forallb (is_expected p) (trace_of (main ports w)) = true
  | None => main ports w = ([], w, Val 1)
  end.
Proof.
  destruct (identify_device ports) as [p|] eqn:Hid.
  - apply forallb_forall. intros e He.
    pose proof (proj1 (main_expected T p ports Hid w)) as Hall.
    rewrite Forall_forall in Hall. now apply Hall.
  - unfold main. rewrite Hid. reflexivity.
Qed.

(** X7. [identify_device] returns the device path of the first listed
    port whose vendor and product identifiers are both the target ones,
    and [None] exactly when no listed port has them. *)
Theorem identify_device_first_match (ports : list port_info) :
  (forall d : string,
     identify_device ports = Some d <->
     exists before q after,
       ports = before ++ q :: after /\
       forallb (fun x => negb (is_target x)) before = true /\
       is_target q = true /\ device q = d) /\
  (identify_device ports = None <->
   forallb (fun x => negb (is_target x)) ports = true) /\
  (forall q : port_info,
     is_target q = true <-> vid q = Some 0x191c /\ pid q = Some 0x4104).
Proof.
  split; [|split].
  - induction ports as [|x rest IH]; intro d; cbn [identify_device].
    + split; [discriminate|]. intros (before & q & after & H & _).
      now destruct before.
    + destruct (is_target x) eqn:Hx.
      * split.
        -- intro H. injection H as <-. exists [], x, rest. auto.
        -- intros (before & q & after & Heq & Hbefore & Hq & Hd).
           destruct before as [|y before].
           ++ cbn [app] in Heq. injection Heq as <- <-. now rewrite Hd.
           ++ cbn [app] in Heq. injection Heq as <- _.
              cbn [forallb] in Hbefore. now rewrite Hx in Hbefore.
      * rewrite IH. split.
        -- intros (before & q & after & -> & Hbefore & Hq & Hd).
           exists (x :: before), q, after. cbn [forallb app].
           now rewrite Hx, Hbefore.
        -- intros (before & q & after & Heq & Hbefore & Hq & Hd).
           destruct before as [|y before].
           ++ cbn [app] in Heq. injection Heq as -> _. congruence.
           ++ cbn [app] in Heq. injection Heq as <- ->.
              cbn [forallb] in Hbefore. apply andb_true_iff in Hbefore as [_ Hb].
              exists before, q, after. auto.
  - induction ports as [|x rest IH]; cbn [identify_device forallb].
    + tauto.
    + destruct (is_target x); cbn [negb andb]; [split; discriminate | exact IH].
  - intro q. unfold is_target.
    destruct (vid q) as [v|], (pid q) as [k|]; try (split; [discriminate | intros [? ?]; discriminate]).
    rewrite andb_true_iff, !Z.eqb_eq. unfold VENDOR_ID, PRODUCT_ID.
    split; [intros [-> ->]; auto | intros [Hv Hk]; injection Hv; injection Hk; auto].
Qed.

(** ** Opening the port during discovery *)

Section Opens.

Variable T : transport.

Lemma opens_app (t1 t2 : list event) : opens (t1 ++ t2) = opens t1 ++ opens t2.
Proof. apply flat_map_app. Qed.

Lemma test_baud_opens (p : string) (baud : Z) (w : world T) :
  opens (trace_of (test_baud p baud w)) = [(p, baud)].
Proof.
  unfold test_baud, with_serial, trace_of.
  destruct (io T w (OpOpen p baud)) as [w1 [bs|]]; [|reflexivity].
  pose proof (proj1 (probe_all_body T is_inside (is_inside_call) eq_refl
                       p baud configurations w1)) as Hin.
  unfold trace_of in Hin.
  destruct (probe_all p baud configurations w1) as [[t w2] r]. cbn [fst] in *.
  change (Call (OpOpen p baud) (Some bs) :: t ++ [Close])
    with ([Call (OpOpen p baud) (Some bs)] ++ t ++ [Close]).
  now rewrite !opens_app, (inside_no_opens t Hin).
Qed.

Lemma test_serial_port_opens (p : string) (bauds : list Z) :
  forall (w w' : world T) (t : list event) (res : outcome (option settings)),
  test_serial_port p bauds w = (t, w', res) ->
  exists k : nat,
    opens t = map (fun b => (p, b)) (firstn k bauds) /\
    (res = Val None -> opens t = map (fun b => (p, b)) bauds).
Proof.
  induction bauds as [|baud rest IH]; intros w w' t res H.
  - injection H as <- <- <-. exists 0%nat. split; reflexivity.
  - cbn [test_serial_port] in H.
    apply bind_inv in H as [[Hm ->] | (t1 & w1 & a & t2 & Hm & Hk & ->)].
    { apply catch_none_inv in Hm as [(x & _ & Hx) | (_ & Hx)]; discriminate. }
    assert (Hopen : opens t1 = [(p, baud)]).
    { pose proof (test_baud_opens p baud w) as Ho. unfold trace_of in Ho.
      apply catch_none_inv in Hm as [(x & Hm & _) | (Hm & _)];
        now rewrite Hm in Ho. }
    destruct a as [s|].
    + injection Hk as <- <- <-. rewrite app_nil_r.
      exists 1%nat. split; [exact Hopen | discriminate].
    + destruct (IH _ _ _ _ Hk) as (k & Hk1 & Hk2).
      exists (S k). rewrite opens_app, Hopen. cbn [firstn map app].
      split; [now rewrite Hk1|]. intro Hres. now rewrite (Hk2 Hres).
Qed.

End Opens.

(** X8. Discovery opens the port once for each baud rate it reaches, in
    the order of the list, with all four handshake configurations tried
    on that one opening; when it returns [None] it has attempted to open
    the port at every baud rate of the list. *)
Theorem discovery_opens_once_per_baud (T : transport) (p : string)
    (bauds : list Z) (w : world T) :
  let run := test_serial_port p bauds w in
  exists k : nat,
    opens (trace_of run) = map (fun b => (p, b)) (firstn k bauds) /\
    (result_of run = Val None ->
     opens (trace_of run) = map (fun b => (p, b)) bauds).
Proof.
  cbv zeta. destruct (test_serial_port p bauds w) as [[t w'] res] eqn:H.
  apply test_serial_port_opens in H. exact H.
Qed.

Lemma discovery_opens_once_per_baud_witness :
  opens (trace_of (@test_serial_port silent "/dev/ttyUSB0" [9600; 19200] tt)) =
  [("/dev/ttyUSB0"%string, 9600); ("/dev/ttyUSB0"%string, 19200)].
Proof.
  destruct (discovery_opens_once_per_baud silent "/dev/ttyUSB0" [9600; 19200] tt)
    as (k & _ & Hall).
  apply Hall. vm_compute. reflexivity.
Defined.

(** ** Discovery: how much is written *)

Section DiscoveryBounds.

Lemma subseq_In {A : Type} (a b : list A) (x : A) :
  subseq a b -> In x a -> In x b.
Proof.
  induction 1 as [|y l1 l2 _ IH|y l1 l2 _ IH]; intro Hx.
  - exact Hx.
  - right. now apply IH.
  - destruct Hx as [->|Hx]; [now left | right; now apply IH].
Qed.

Lemma probe_order_length (bauds : list Z) :
  List.length (probe_order bauds) = (8 * List.length bauds)%nat.
Proof.
  induction bauds as [|b rest IH]; [reflexivity|].
  rewrite probe_order_cons, length_app, IH.
  change (List.length (flat_map candidate_probes (candidates_at b configurations)))
    with 8%nat.
  cbn [List.length]. lia.
Qed.

Lemma probe_order_packets (bauds : list Z) (pr : line * list Z) :
  In pr (probe_order bauds) ->
  snd pr = SYNC_PACKET \/ snd pr = RESET_PACKET.
Proof.
  unfold probe_order. rewrite in_flat_map.
  intros ([baud [d r]] & _ & Hin). cbn [candidate_probes] in Hin.
  destruct Hin as [<-|[<-|[]]]; auto.
Qed.

End DiscoveryBounds.

(** X9. On every transport discovery writes nothing but the SYNC and the
    RESET probe packet, and at most eight packets for each baud rate of
    the list. *)
Theorem discovery_writes_bounded (T : transport) (p : string)
    (bauds : list Z) (w : world T) :
  let run := test_serial_port p bauds w in
  (List.length (writes (trace_of run)) <= 8 * List.length bauds)%nat /\
  (forall pkt, In pkt (writes (trace_of run)) ->
     pkt = SYNC_PACKET \/ pkt = RESET_PACKET).
Proof.
  cbv zeta. destruct (test_serial_port p bauds w) as [[t w'] res] eqn:H.
  unfold trace_of. cbn [fst].
  pose proof (test_serial_port_run T _ _ (0, false, false) _ _ _ _ H)
    as (Hsub & _).
  fold (probes t) in Hsub. split.
  - unfold writes. rewrite length_map, <- probe_order_length.
    now apply subseq_length.
  - intros pkt Hin. unfold writes in Hin. apply in_map_iff in Hin as (pr & <- & Hpr).
    apply (probe_order_packets bauds). now apply (subseq_In _ _ _ Hsub).
Qed.

(** X10. Whatever the list of baud rates and the transport: when
    discovery returns [None] and no request has raised, every candidate
    of the list was probed with a SYNC and then a RESET, in order, so
    exactly eight packets were written for each baud rate. *)
Theorem discovery_none_is_exhaustive (T : transport) (p : string)
    (bauds : list Z) (w : world T)
    (Hnone : result_of (test_serial_port p bauds w) = Val None)
    (Hclean : faultless (trace_of (test_serial_port p bauds w)) = true) :
  probes (trace_of (test_serial_port p bauds w)) = probe_order bauds /\
  List.length (writes (trace_of (test_serial_port p bauds w)))
    = (8 * List.length bauds)%nat.
Proof.
  destruct (test_serial_port p bauds w) as [[t w'] res] eqn:H.
  unfold trace_of, result_of in *. cbn [fst snd] in *. subst res.
  pose proof (test_serial_port_run T _ _ (0, false, false) _ _ _ _ H)
    as (_ & _ & _ & Hfull).
  specialize (Hfull Hclean). fold (probes t) in Hfull.
  split; [exact Hfull|].
  unfold writes. now rewrite length_map, Hfull, probe_order_length.
Qed.

Lemma discovery_none_is_exhaustive_witness :
  List.length
    (writes (trace_of (@test_serial_port silent "/dev/ttyUSB0" [4800; 9600; 57600] tt)))
  = 24%nat.
Proof.
  apply (discovery_none_is_exhaustive silent "/dev/ttyUSB0" [4800; 9600; 57600] tt);
    vm_compute; reflexivity.
Defined.

(** ** Command run: the only failures are the transport's *)

Section SessionFaults.

Variable T : transport.

Ltac run_closed H :=
  repeat match type of H with
         | context [create_ssp_packet ?c ?q ?d] =>
             let v := eval vm_compute in (create_ssp_packet c q d) in
             change (create_ssp_packet c q d) with v in H;
             cbv beta iota in H
         | context [io T ?w ?o] =>
             let w1 := fresh "w" in
             let bs := fresh "bs" in
             destruct (io T w o) as [w1 [bs|]]; cbv beta iota in H
         | context [nonempty ?bs] =>
             is_var bs; destruct bs; cbn [nonempty] in H; cbv beta iota in H
         | context [?c =? CMD_POLL] =>
             let v := eval vm_compute in (c =? CMD_POLL) in
             change (c =? CMD_POLL) with v in H;
             cbv beta iota in H
         end;
  cbn [app] in H.

Lemma session_raises_on_fault_only (st : settings) (w w' : world T)
    (t : list event) (res : outcome Z) :
  session st w = (t, w', res) ->
  (res = Exc <-> faultless t = false) /\
  (res <> Exc -> res = Val 0x84).
Proof.
  intro H. destruct st as [p b d r].
  cbv beta iota delta [session with_serial run_commands commands send_command
                       bind call sleep raise_none ret for_each extra_poll
                       port baudrate dtr rts] in H.
  run_closed H.
  all: injection H as <- <- <-.
  all: split; [split; intro Hx; first [reflexivity | discriminate Hx]
              | intro Hx; first [reflexivity | now destruct Hx]].
Qed.

End SessionFaults.

(** X11. The command run raises exactly when a request to the transport
    raised: building its packets never fails, since every sequence byte
    it uses is a byte.  When it completes, the counter stands at 0x84,
    four advances from 0x80, with or without the three extra POLLs. *)
Theorem session_fails_only_by_transport (T : transport) (st : settings)
    (w : world T) :
  (result_of (session st w) = Exc <->
   faultless (trace_of (session st w)) = false) /\
  (result_of (session st w) <> Exc -> result_of (session st w) = Val 0x84).
Proof.
  destruct (session st w) as [[t w'] res] eqn:H.
  apply session_raises_on_fault_only in H. exact H.
Qed.

Lemma session_fails_only_by_transport_witness :
  result_of (@session (sim_device (9600, false, false) [0xF0] never)
               {| port := "/dev/ttyUSB0"; baudrate := 9600;
                  dtr := false; rts := false |} power_on) = Val 0x84.
Proof.
  apply (session_fails_only_by_transport
           (sim_device (9600, false, false) [0xF0] never)).
  vm_compute. discriminate.
Defined.

(** ** Sequence counter on arbitrary values *)

Section AdvanceFacts.

Lemma advance_arith (s : Z) : advance s = 128 + (s + 1) mod 128.
Proof.
  unfold advance. change 0x7F with (Z.ones 7). rewrite Z.land_ones by lia.
  change (2 ^ 7) with 128. apply lor_128_small, Z.mod_pos_bound. lia.
Qed.

Lemma iter_advance_arith (n : nat) (s : Z) :
  Nat.iter (S n) advance s = 128 + (s + Z.of_nat (S n)) mod 128.
Proof.
  induction n as [|n IH].
  - cbn [Nat.iter nat_rect]. apply advance_arith.
  - rewrite Nat.iter_succ, IH, advance_arith. f_equal.
    replace (128 + (s + Z.of_nat (S n)) mod 128 + 1)
      with ((s + Z.of_nat (S n)) mod 128 + 1 + 1 * 128) by lia.
    rewrite Z_mod_plus_full, Z.add_mod_idemp_l by lia. f_equal. lia.
Qed.

End AdvanceFacts.

(** X12. On any integer the counter update gives [128 + (s + 1) mod 128]:
    a byte with the high bit set, whatever came in.  From a value in
    0x80..0xFF it comes back to that value after exactly 128 advances,
    stepping from 0xFF to 0x80 on the way. *)
Theorem advance_wraps (s : Z) :
  advance s = 128 + (s + 1) mod 128 /\
  is_byte (advance s) = true /\
  Z.testbit (advance s) 7 = true /\
  (128 <= s <= 255 ->
   Nat.iter 128 advance s = s /\
   forall n : nat, (0 < n < 128)%nat -> Nat.iter n advance s <> s).
Proof.
  pose proof (Z.mod_pos_bound (s + 1) 128 ltac:(lia)) as Hm.
  split; [apply advance_arith|].
  split; [rewrite advance_arith; apply byte_range; lia|].
  split; [unfold advance; apply lor_128_high_bit|].
  intro Hs. split.
  - rewrite (iter_advance_arith 127 s).
    change (Z.of_nat 128) with (1 * 128). rewrite Z_mod_plus_full.
    rewrite <- (Z_mod_plus_full s (-1) 128), Z.mod_small; lia.
  - intros n Hn. destruct n as [|n]; [lia|].
    rewrite iter_advance_arith. intro Heq.
    assert (Hmod : (s + Z.of_nat (S n)) mod 128 = s - 128) by lia.
    pose proof (Z.div_mod (s + Z.of_nat (S n)) 128 ltac:(lia)) as Hdm.
    rewrite Hmod in Hdm.
    assert (Hq : 128 * ((s + Z.of_nat (S n)) / 128) = Z.of_nat (S n) + 128) by lia.
    assert (Hrange : 0 < Z.of_nat (S n) < 128) by lia.
    assert (Hdiv : 1 < (s + Z.of_nat (S n)) / 128 < 2) by lia.
    lia.
Qed.

Lemma advance_wraps_witness :
  Nat.iter 128 advance 0xFF = 0xFF /\ advance 0xFF = 128 + (0xFF + 1) mod 128.
Proof.
  destruct (advance_wraps 0xFF) as (Harith & _ & _ & Hperiod).
  split; [|exact Harith].
  apply Hperiod. lia.
Defined.

(** ** Packets determine what they were built from *)

Lemma app_same_length_head {A : Type} (a b x y : list A) :
  List.length a = List.length b -> a ++ x = b ++ y -> a = b.
Proof.
  intros Hlen H.
  apply (f_equal (firstn (List.length a))) in H.
  rewrite firstn_app, Nat.sub_diag, firstn_all, firstn_O, app_nil_r in H.
  rewrite Hlen, firstn_app, Nat.sub_diag, firstn_all, firstn_O, app_nil_r in H.
  exact H.
Qed.

(** X13. A packet is built from one command, one sequence byte and one
    data sequence only: two calls of [create_ssp_packet] that return the
    same packet were given the same arguments. *)
Theorem create_ssp_packet_injective (command command' sequence sequence' : Z)
    (data data' pkt : list Z)
    (Hpkt : create_ssp_packet command sequence data = Some pkt)
    (Hpkt' : create_ssp_packet command' sequence' data' = Some pkt) :
  command = command' /\ sequence = sequence' /\ data = data'.
Proof.
  unfold create_ssp_packet in Hpkt, Hpkt'.
  apply to_bytes_some in Hpkt as [Heq _].
  apply to_bytes_some in Hpkt' as [Heq' _].
  rewrite Heq in Heq'. clear Heq.
  rewrite <- !app_assoc in Heq'. cbn [app] in Heq'.
  injection Heq' as Hseq Hlen Hcmd Hrest.
  assert (Hl : List.length data = List.length data') by lia.
  apply app_same_length_head in Hrest; [|exact Hl].
  subst. auto.
Qed.

Lemma create_ssp_packet_injective_witness :
  CMD_SYNC = CMD_SYNC /\ 0x80 = 0x80 /\ @nil Z = [].
Proof.
  apply (create_ssp_packet_injective CMD_SYNC CMD_SYNC 0x80 0x80 [] []
           [0x7F; 0x80; 0x01; 0x11; 0xA1; 0xFF]);
    vm_compute; reflexivity.
Defined.
